(** * Video upload pipeline: a shallow embedding of [handler_upload_video.go]
    and of the thumbnail handler, with the properties of the upload-and-classify
    pipeline stated over it.

    Go's [int] is the 64-bit two's-complement integer, modelled as [Z] with
    the wrap-around written out.  Strings are [string], byte slices are
    [list byte].  The handler is straight-line code with early returns,
    deferred calls and one possible run-time panic; it is embedded in a small
    state monad whose state holds the metadata store, the filesystem, the
    object store, the response and the stack of deferred calls. *)

From Stdlib Require Import ZArith Lia Ascii String.
From Stdlib.Strings Require Import Byte.
From stdpp Require Import base option list gmap strings.

Local Open Scope Z_scope.

(** ** Go integer arithmetic *)

Module GoInt.

Definition min_int : Z := - 2 ^ 63.
Definition max_int : Z := 2 ^ 63 - 1.

Definition in_range (z : Z) : Prop := min_int <= z <= max_int.

(** Two's-complement wrap-around of a mathematical integer into [int]. *)
Definition wrap (z : Z) : Z := (z + 2 ^ 63) mod 2 ^ 64 - 2 ^ 63.

(** [a * b] on [int]. *)
Definition mul (a b : Z) : Z := wrap (a * b).

(** [a / b] on [int]: the quotient truncated toward zero. *)
Definition quo (a b : Z) : Z := wrap (Z.quot a b).

End GoInt.

(** ** [strings.Split] with a one-byte separator *)

Module Strings.

(** [strings.Split(s, sep)] for the one-byte separator [sep]: the pieces of
    [s] between the occurrences of [sep]; a string without [sep] yields the
    one-element slice holding [s] itself. *)
Fixpoint Split (s : string) (sep : ascii) : list string :=
  match s with
  | EmptyString => [EmptyString]
  | String c rest =>
      if Ascii.eqb c sep then EmptyString :: Split rest sep
      else match Split rest sep with
           | piece :: pieces => String c piece :: pieces
           | [] => [String c EmptyString]
           end
  end.

(** [strings.Contains(s, sep)] for the one-byte [sep]. *)
Fixpoint Contains (s : string) (sep : ascii) : bool :=
  match s with
  | EmptyString => false
  | String c rest => Ascii.eqb c sep || Contains rest sep
  end.

End Strings.

(** ** [base64.RawURLEncoding] *)

Module Base64.

(** The URL-safe alphabet of RFC 4648, section 5. *)
Definition encodeURL : string :=
  "ABCDEFGHIJKLMNOPQRSTUVWXYZabcdefghijklmnopqrstuvwxyz0123456789-_".

Definition u8 (b : byte) : Z := Z.of_N (Byte.to_N b).

(** [enc.encode[v & 0x3F]]. *)
Definition digit (v : Z) : ascii :=
  match String.get (Z.to_nat (Z.land v 63)) encodeURL with
  | Some c => c
  | None => "A"%char
  end.

(** [RawURLEncoding.EncodeToString]: three source bytes give four digits;
    a remainder of one byte gives two digits and of two bytes three; no
    padding character is written. *)
Fixpoint EncodeToString (src : list byte) : string :=
  match src with
  | [] => EmptyString
  | [a] =>
      let val := Z.shiftl (u8 a) 16 in
      String (digit (Z.shiftr val 18)) (String (digit (Z.shiftr val 12)) EmptyString)
  | [a; b] =>
      let val := Z.lor (Z.shiftl (u8 a) 16) (Z.shiftl (u8 b) 8) in
      String (digit (Z.shiftr val 18))
        (String (digit (Z.shiftr val 12))
           (String (digit (Z.shiftr val 6)) EmptyString))
  | a :: b :: c :: rest =>
      let val := Z.lor (Z.lor (Z.shiftl (u8 a) 16) (Z.shiftl (u8 b) 8)) (u8 c) in
      String (digit (Z.shiftr val 18))
        (String (digit (Z.shiftr val 12))
           (String (digit (Z.shiftr val 6))
              (String (digit val) (EncodeToString rest))))
  end.


(** Every character of the string is a digit of the URL-safe alphabet; the
    padding character [=] is not one of them. *)
Fixpoint url_safe (s : string) : Prop :=
  match s with
  | EmptyString => True
  | String c rest => (exists v, 0 <= v < 64 /\ c = digit v) /\ url_safe rest
  end.

End Base64.

(** ** Data model *)

(** [uuid.UUID] is a 128-bit value; only its equality is used. *)
Definition UUID : Type := N.

(** Modelled from the spec: the [database.Video] record of the metadata
    store, whose declaration is outside these sources.  It has an identity,
    an owning-user identity, an optional video reference, an optional
    thumbnail reference and descriptive fields the handlers never touch. *)
Record Video := {
  ID : UUID;
  UserID : UUID;
  VideoURL : option string;
  ThumbnailURL : option string;
  Title : string;
  Description : string;
}.

(** [videoMetadata.VideoURL = &videoURL] on the handler's copy of the record. *)
Definition set_VideoURL (v : Video) (url : string) : Video :=
  {| ID := ID v; UserID := UserID v; VideoURL := Some url;
     ThumbnailURL := ThumbnailURL v; Title := Title v; Description := Description v |}.

(** [videoMetadata.ThumbnailURL = &thumbnailURL]. *)
Definition set_ThumbnailURL (v : Video) (url : string) : Video :=
  {| ID := ID v; UserID := UserID v; VideoURL := VideoURL v;
     ThumbnailURL := Some url; Title := Title v; Description := Description v |}.

(** Modelled from the spec: the fields of [apiConfig] the two handlers read
    (its declaration is outside these sources); the metadata store [cfg.db]
    and the object store behind [cfg.s3Client] are part of the machine state
    below. *)
Record apiConfig := {
  jwtSecret : string;
  s3Bucket : string;
  s3Region : string;
  assetsRoot : string;
  port : string;
}.

(** One element of [FFProbeOutput.Streams]. *)
Record Stream := {
  CodecType : string;
  Width : Z;
  Height : Z;
}.

Record FFProbeOutput := {
  Streams : list Stream;
}.

(** What [cmd.Run()] leaves in the buffer bound to [cmd.Stdout]: nothing when
    the program could not be started, otherwise whatever the process wrote
    before it exited (successfully or not). *)
Inductive ProbeRun :=
| NotStarted
| Exited (stdout : list byte) (success : bool).

Definition Stdout (p : ProbeRun) : list byte :=
  match p with
  | NotStarted => []
  | Exited out _ => out
  end.

(** A file part of the multipart form: the value of its [Content-Type]
    header ([header.Header.Get], empty when absent) and its bytes. *)
Record FilePart := {
  part_ContentType : string;
  part_data : list byte;
}.

(** An inbound request.  [body_len] is the number of bytes the client sends
    as the body; [form_extent] is how many of them the multipart parser has
    to read to reach the end of the closing boundary (the parser reads no
    further: an epilogue after the closing boundary stays unread);
    [form_file key] is the part stored under [key] once the form has been
    read. *)
Record Request := {
  PathValue : string -> string;
  Header : list (string * string);
  body_len : Z;
  form_extent : Z;
  form_file : string -> option FilePart;
}.

(** The outcomes of the calls that leave the program: libraries outside the
    repository ([uuid], [mime], [encoding/json], [crypto/rand], [os], [io],
    [os/exec], the S3 client), and the repository's [internal/auth] and
    [internal/database] packages, which are not among these sources.  [None]
    (or [true] for the [_fails] fields) stands for a non-nil [error]. *)
Record Env := {
  uuid_Parse : string -> option UUID;
  UUID_String : UUID -> string;
  GetBearerToken : list (string * string) -> option string;
  ValidateJWT : string -> string -> option UUID;
  GetVideo_fails : bool;
  ParseMediaType : string -> option string;
  CreateTemp_name : option string;
  Copy_failure : option nat;
  crypto_rand : option (nat -> byte);
  ffprobe : list string -> ProbeRun;
  json_Unmarshal : list byte -> option FFProbeOutput;
  PutObject_fails : bool;
  UpdateVideo_fails : bool;
  filepath_Join : string -> string -> string;
  Create_fails : bool;
}.

(** ** The machine the handlers run on *)

(** An open file: a file of the parsed multipart form, or a file of the
    filesystem. *)
Inductive Handle :=
| MultipartFile (key : string)
| OSFile (name : string).

Definition Handle_eqb (a b : Handle) : bool :=
  match a, b with
  | MultipartFile k, MultipartFile k' => String.eqb k k'
  | OSFile n, OSFile n' => String.eqb n n'
  | _, _ => false
  end.

(** The calls a handler issues, in the order it issues them. *)
Inductive Event :=
| EvGetVideo (id : UUID)
| EvFormFile (key : string)
| EvCreateTemp (name : string)
| EvCreate (name : string)
| EvCopy (dst : string) (written : nat)
| EvSeek (name : string)
| EvRandRead (n : nat)
| EvExec (name : string) (args : list string)
| EvPutObject (bucket key contentType : string)
| EvUpdateVideo (v : Video)
| EvClose (handle : Handle)
| EvRemove (name : string)
| EvPrintln.

Inductive Body :=
| ErrorBody (msg : string)
| VideoBody (v : Video).

Record Response := {
  status : Z;
  body : Body;
}.

(** An object of the durable store. *)
Record Object := {
  Bucket : string;
  Key : string;
  ContentType : string;
  Content : list byte;
}.

(** A call registered with [defer]. *)
Inductive Deferred :=
| DeferClose (handle : Handle)
| DeferRemove (name : string).

Record Machine := {
  db : gmap N Video;
  fs : gmap string (list byte);
  handles : list Handle;
  s3 : list Object;
  trace : list Event;
  response : option Response;
  deferred : list Deferred;
  body_limit : option Z;
}.

Definition with_db (d : gmap N Video) (m : Machine) : Machine :=
  {| db := d; fs := fs m; handles := handles m; s3 := s3 m; trace := trace m;
     response := response m; deferred := deferred m; body_limit := body_limit m |}.

Definition with_fs (f : gmap string (list byte)) (m : Machine) : Machine :=
  {| db := db m; fs := f; handles := handles m; s3 := s3 m; trace := trace m;
     response := response m; deferred := deferred m; body_limit := body_limit m |}.

Definition with_handles (h : list Handle) (m : Machine) : Machine :=
  {| db := db m; fs := fs m; handles := h; s3 := s3 m; trace := trace m;
     response := response m; deferred := deferred m; body_limit := body_limit m |}.

Definition with_s3 (o : list Object) (m : Machine) : Machine :=
  {| db := db m; fs := fs m; handles := handles m; s3 := o; trace := trace m;
     response := response m; deferred := deferred m; body_limit := body_limit m |}.

Definition with_response (r : option Response) (m : Machine) : Machine :=
  {| db := db m; fs := fs m; handles := handles m; s3 := s3 m; trace := trace m;
     response := r; deferred := deferred m; body_limit := body_limit m |}.

Definition with_deferred (d : list Deferred) (m : Machine) : Machine :=
  {| db := db m; fs := fs m; handles := handles m; s3 := s3 m; trace := trace m;
     response := response m; deferred := d; body_limit := body_limit m |}.

Definition with_body_limit (l : option Z) (m : Machine) : Machine :=
  {| db := db m; fs := fs m; handles := handles m; s3 := s3 m; trace := trace m;
     response := response m; deferred := deferred m; body_limit := l |}.

(** Record a call at the end of the trace. *)
Definition log (ev : Event) (m : Machine) : Machine :=
  {| db := db m; fs := fs m; handles := handles m; s3 := s3 m;
     trace := trace m ++ [ev];
     response := response m; deferred := deferred m; body_limit := body_limit m |}.

(** How a statement of a handler ends: control goes on with a value, the
    handler executes [return], or a run-time panic unwinds it. *)
Inductive Flow (A : Type) :=
| Next (a : A)
| Return
| Panic (msg : string).

Arguments Next {A} a.
Arguments Return {A}.
Arguments Panic {A} msg.

Definition M (A : Type) : Type := Machine -> Flow A * Machine.

Definition ret {A} (a : A) : M A := fun m => (Next a, m).

Definition bind {A B} (c : M A) (k : A -> M B) : M B :=
  fun m =>
    match c m with
    | (Next a, m') => k a m'
    | (Return, m') => (Return, m')
    | (Panic msg, m') => (Panic msg, m')
    end.

Notation "'let*' x ':=' c 'in' k" := (bind c (fun x => k))
  (at level 10, x pattern, c at level 100, k at level 200).
Notation "c ';;' k" := (bind c (fun _ => k))
  (at level 100, k at level 200, right associativity, only parsing).

(** The statement [return]. *)
Definition return_ {A} : M A := fun m => (Return, m).

(** A run-time panic. *)
Definition panic {A} (msg : string) : M A := fun m => (Panic msg, m).

(** Apply a state change. *)
Definition modify (f : Machine -> Machine) : M unit := fun m => (Next tt, f m).

(** [defer]: push the call on the stack of deferred calls. *)
Definition defer (d : Deferred) : M unit :=
  modify (fun m => with_deferred (d :: deferred m) m).

(** ** Status codes and response helpers *)

Definition StatusOK : Z := 200.
Definition StatusBadRequest : Z := 400.
Definition StatusUnauthorized : Z := 401.
Definition StatusInternalServerError : Z := 500.

(** Modelled from the spec: [respondWithError], defined outside these
    sources, writes an error status with a short message; the [err] argument
    is not part of the response. *)
Definition respondWithError (code : Z) (msg : string) : M unit :=
  modify (with_response (Some {| status := code; body := ErrorBody msg |})).

(** Modelled from the spec: [respondWithJSON], defined outside these
    sources, writes the status and the record serialised as JSON. *)
Definition respondWithJSON (code : Z) (v : Video) : M unit :=
  modify (with_response (Some {| status := code; body := VideoBody v |})).

(** [if err != nil { respondWithError(w, code, msg, err); return }] after a
    call whose result is [o]. *)
Definition or_respond {A} (o : option A) (code : Z) (msg : string) : M A :=
  match o with
  | Some a => ret a
  | None => respondWithError code msg ;; return_
  end.

(** [s[i]] on a slice: a run-time panic when [i] is out of range. *)
Definition index (s : list string) (i : nat) : M string :=
  match s !! i with
  | Some x => ret x
  | None => panic "index out of range"
  end.

(** ** Calls on the machine *)

(** [r.Body = http.MaxBytesReader(w, r.Body, n)]: nothing is read; from now
    on the first [n] bytes of the body can be read and a read that goes past
    them fails.  The declared length of the body is not looked at. *)
Definition MaxBytesReader (n : Z) : M unit :=
  modify (with_body_limit (Some n)).

(** Whether reading [extent] bytes of the body goes past the limit in force. *)
Definition over_limit (limit : option Z) (extent : Z) : bool :=
  match limit with
  | Some n => n <? extent
  | None => false
  end.

(** [r.FormFile(key)]: parses the multipart form, reading [r.Body] up to the
    end of the form's closing boundary and no further.  It fails when that
    read goes past the limit set on the body or when the form has no file
    under [key]; otherwise it opens the file and returns it with its header.
    The parts are held by the parsed form from then on: later reads of the
    file do not touch [r.Body]. *)
Definition FormFile (r : Request) (key : string) : M (option (Handle * FilePart)) :=
  fun m =>
    let m := log (EvFormFile key) m in
    if over_limit (body_limit m) (form_extent r) then (Next None, m)
    else match form_file r key with
         | None => (Next None, m)
         | Some part =>
             (Next (Some (MultipartFile key, part)),
              with_handles (MultipartFile key :: handles m) m)
         end.

(** Modelled from the spec: [cfg.db.GetVideo], the metadata store's
    get-by-identity, defined outside these sources. *)
Definition GetVideo (E : Env) (id : UUID) : M (option Video) :=
  fun m =>
    let m := log (EvGetVideo id) m in
    if GetVideo_fails E then (Next None, m) else (Next (db m !! id), m).

(** Modelled from the spec: [cfg.db.UpdateVideo], the metadata store's
    update, defined outside these sources; a failed update changes nothing. *)
Definition UpdateVideo (E : Env) (v : Video) : M (option unit) :=
  fun m =>
    let m := log (EvUpdateVideo v) m in
    if UpdateVideo_fails E then (Next None, m)
    else (Next (Some tt), with_db (<[ID v := v]> (db m)) m).

(** [os.CreateTemp]: creates a file that did not exist and opens it. *)
Definition CreateTemp (E : Env) : M (option string) :=
  fun m =>
    match CreateTemp_name E with
    | Some name =>
        match fs m !! name with
        | None =>
            (Next (Some name),
             with_handles (OSFile name :: handles m)
               (with_fs (<[name := []]> (fs m)) (log (EvCreateTemp name) m)))
        | Some _ => (Next None, m)
        end
    | None => (Next None, m)
    end.

(** [os.Create]: creates or truncates the file and opens it. *)
Definition Create (E : Env) (name : string) : M (option string) :=
  fun m =>
    if Create_fails E then (Next None, m)
    else (Next (Some name),
          with_handles (OSFile name :: handles m)
            (with_fs (<[name := []]> (fs m)) (log (EvCreate name) m))).

(** [io.Copy(dst, src)]: on failure the bytes written so far stay in [dst]. *)
Definition Copy (E : Env) (dst : string) (src : list byte) : M (option unit) :=
  fun m =>
    match Copy_failure E with
    | Some n =>
        (Next None,
         with_fs (<[dst := take n src]> (fs m))
           (log (EvCopy dst (Nat.min n (length src))) m))
    | None =>
        (Next (Some tt),
         with_fs (<[dst := src]> (fs m)) (log (EvCopy dst (length src)) m))
    end.

(** [tempFile.Seek(0, io.SeekStart)]; its result is discarded. *)
Definition Seek (name : string) : M unit := modify (log (EvSeek name)).

(** [rand.Read(b)] of [crypto/rand] on a buffer of [n] bytes: fills the whole
    buffer or fails. *)
Definition rand_Read (E : Env) (n : nat) : M (option (list byte)) :=
  fun m => (Next (option_map (fun src => map src (seq 0 n)) (crypto_rand E)), log (EvRandRead n) m).

(** [cmd.Run()] with [cmd.Stdout = &out]; the error [Run] returns is
    discarded by the caller, so only the bytes left in [out] matter. *)
Definition Run (E : Env) (name : string) (args : list string) : M (list byte) :=
  fun m => (Next (Stdout (ffprobe E args)), log (EvExec name args) m).

(** [cfg.s3Client.PutObject]: the body is the staged file, read from its
    start. *)
Definition PutObject (E : Env) (bucket key : string) (bodyFile : string) (contentType : string) :
    M (option unit) :=
  fun m =>
    let m := log (EvPutObject bucket key contentType) m in
    if PutObject_fails E then (Next None, m)
    else (Next (Some tt),
          with_s3 (s3 m ++ [{| Bucket := bucket; Key := key; ContentType := contentType;
                               Content := default [] (fs m !! bodyFile) |}]) m).

(** [f.Close()]. *)
Definition Close (handle : Handle) (m : Machine) : Machine :=
  with_handles (List.filter (fun h => negb (Handle_eqb h handle)) (handles m))
    (log (EvClose handle) m).

(** [os.Remove(name)]. *)
Definition Remove (name : string) (m : Machine) : Machine :=
  with_fs (delete name (fs m)) (log (EvRemove name) m).

Definition run_call (m : Machine) (d : Deferred) : Machine :=
  match d with
  | DeferClose handle => Close handle m
  | DeferRemove name => Remove name m
  end.

(** The deferred calls run when the function is left, last registered
    first, whether it returns or panics. *)
Definition run_deferred (m : Machine) : Machine :=
  fold_left run_call (deferred m) (with_deferred [] m).

(** How the server sees a handler end. *)
Inductive Exit :=
| Finished
| Panicked (msg : string).

(** Calling a handler: its body runs, then its deferred calls. *)
Definition serve (handler : M unit) (m : Machine) : Exit * Machine :=
  let '(flow, m') := handler m in
  (match flow with Panic msg => Panicked msg | _ => Finished end, run_deferred m').

(** ** [getVideoAspectRatio] *)

(** The loop over [data.Streams]: [width] and [height] start at zero and
    every stream whose [codec_type] is ["video"] overwrites both. *)
Definition scan_streams (streams : list Stream) : Z * Z :=
  fold_left
    (fun dims stream =>
       if String.eqb (CodecType stream) "video"
       then (Width stream, Height stream)
       else dims)
    streams (0, 0).

(** The comparisons after the loop. *)
Definition ratio_of (width height : Z) : string :=
  if width =? GoInt.quo (GoInt.mul 16 height) 9 then "16:9"
  else if height =? GoInt.quo (GoInt.mul 16 width) 9 then "9:16"
  else "other".

(** The arguments of [exec.Command("ffprobe", ...)]. *)
Definition ffprobe_args (filePath : string) : list string :=
  ["-v"; "error"; "-print_format"; "json"; "-show_streams"; filePath].

Definition getVideoAspectRatio (E : Env) (filePath : string) : M (option string) :=
  let* out := Run E "ffprobe" (ffprobe_args filePath) in
  match json_Unmarshal E out with
  | None => ret None
  | Some data =>
      let '(width, height) := scan_streams (Streams data) in
      ret (Some (ratio_of width height))
  end.

(** ** [handlerUploadVideo] *)

(** The [switch aspectRatio] that picks the key prefix. *)
Definition directory_of (aspectRatio : string) : string :=
  if String.eqb aspectRatio "16:9" then "landscape"
  else if String.eqb aspectRatio "9:16" then "portrait"
  else "other".

(** [prefix + base64.RawURLEncoding.EncodeToString(videoRandomName) + "." + extension]. *)
Definition encodedVideoName_of (directory : string) (videoRandomName : list byte)
    (extension : string) : string :=
  (directory +:+ "/") +:+ Base64.EncodeToString videoRandomName +:+ "." +:+ extension.

(** [fmt.Sprintf("https://%s.s3.%s.amazonaws.com/%s", bucket, region, key)]. *)
Definition videoURL_of (cfg : apiConfig) (key : string) : string :=
  "https://" +:+ s3Bucket cfg +:+ ".s3." +:+ s3Region cfg +:+ ".amazonaws.com/" +:+ key.

Definition handlerUploadVideo (E : Env) (cfg : apiConfig) (r : Request) : M unit :=
  MaxBytesReader (Z.shiftl 1 30) ;;
  let videoIdString := PathValue r "videoID" in
  let* videoId := or_respond (uuid_Parse E videoIdString) StatusBadRequest "Invalid ID" in
  let* token := or_respond (GetBearerToken E (Header r)) StatusUnauthorized "Couldn't find JWT" in
  let* userId :=
    or_respond (ValidateJWT E token (jwtSecret cfg)) StatusUnauthorized "Couldn't validate JWT" in
  let* found := GetVideo E videoId in
  let* videoMetadata :=
    or_respond found StatusInternalServerError "Couldn't find video metadata" in
  if negb (N.eqb (UserID videoMetadata) userId) then
    respondWithError StatusUnauthorized "User not authorized" ;; return_
  else
  let* opened := FormFile r "video" in
  let* (videoFile, header) := or_respond opened StatusBadRequest "Unable to parse video file" in
  defer (DeferClose videoFile) ;;
  let* mediaType :=
    or_respond (ParseMediaType E (part_ContentType header)) StatusBadRequest "Invalid ID" in
  let* extension := index (Strings.Split mediaType "/") 1 in
  if negb (String.eqb mediaType "video/mp4") then
    respondWithError StatusBadRequest "Invalid file upload" ;; return_
  else
  let* created := CreateTemp E in
  let* tempFile := or_respond created StatusInternalServerError "Couldn't create temp file" in
  defer (DeferRemove tempFile) ;;
  defer (DeferClose (OSFile tempFile)) ;;
  let* copied := Copy E tempFile (part_data header) in
  or_respond copied StatusInternalServerError "Couldn't write video data" ;;
  Seek tempFile ;;
  let* filled := rand_Read E 32 in
  let* videoRandomName :=
    or_respond filled StatusInternalServerError "Couldn't generate random name" in
  let* probed := getVideoAspectRatio E tempFile in
  let* aspectRatio :=
    or_respond probed StatusInternalServerError "Couldn't get aspect ratio" in
  let directory := directory_of aspectRatio in
  let encodedVideoName := encodedVideoName_of directory videoRandomName extension in
  let* put := PutObject E (s3Bucket cfg) encodedVideoName tempFile mediaType in
  or_respond put StatusInternalServerError "Couldn't upload to S3" ;;
  let videoURL := videoURL_of cfg encodedVideoName in
  let videoMetadata := set_VideoURL videoMetadata videoURL in
  let* updated := UpdateVideo E videoMetadata in
  or_respond updated StatusInternalServerError "Couldn't update video" ;;
  respondWithJSON StatusOK videoMetadata.

(** ** [handlerUploadThumbnail] *)

(** [fmt.Sprintf("http://localhost:%s/assets/%s.%s", port, id, ext)]. *)
Definition thumbnailURL_of (E : Env) (cfg : apiConfig) (videoID : UUID)
    (fileExtension : string) : string :=
  "http://localhost:" +:+ port cfg +:+ "/assets/" +:+ UUID_String E videoID
    +:+ "." +:+ fileExtension.

Definition handlerUploadThumbnail (E : Env) (cfg : apiConfig) (r : Request) : M unit :=
  let videoIDString := PathValue r "videoID" in
  let* videoID := or_respond (uuid_Parse E videoIDString) StatusBadRequest "Invalid ID" in
  let* token := or_respond (GetBearerToken E (Header r)) StatusUnauthorized "Couldn't find JWT" in
  let* userID :=
    or_respond (ValidateJWT E token (jwtSecret cfg)) StatusUnauthorized "Couldn't validate JWT" in
  modify (log EvPrintln) ;;
  (* r.ParseMultipartForm(maxMemory): its error is discarded here and
     reported again by FormFile *)
  let* opened := FormFile r "thumbnail" in
  let* (file, headers) := or_respond opened StatusBadRequest "Unable to parse form file" in
  defer (DeferClose file) ;;
  let mediaType := part_ContentType headers in
  let* found := GetVideo E videoID in
  let* videoMetadata :=
    or_respond found StatusInternalServerError "Unabel to fetch video metadata" in
  if negb (N.eqb userID (UserID videoMetadata)) then
    respondWithError StatusUnauthorized "Not allowed" ;; return_
  else
  let filePath := filepath_Join E (assetsRoot cfg) (UUID_String E videoID) in
  let* fileExtension := index (Strings.Split mediaType "/") 1 in
  let* created := Create E (filePath +:+ "." +:+ fileExtension) in
  let* out := or_respond created StatusInternalServerError "Couldn't create file" in
  let* copied := Copy E out (part_data headers) in
  or_respond copied StatusInternalServerError "Couldn't write data" ;;
  let thumbnailURL := thumbnailURL_of E cfg videoID fileExtension in
  let videoMetadata := set_ThumbnailURL videoMetadata thumbnailURL in
  let* updated := UpdateVideo E videoMetadata in
  or_respond updated StatusBadRequest "Unable to update video" ;;
  respondWithJSON StatusOK videoMetadata.

(** A machine in which no request is in progress. *)
Definition idle (d : gmap N Video) (f : gmap string (list byte)) (o : list Object) : Machine :=
  {| db := d; fs := f; handles := []; s3 := o; trace := []; response := None;
     deferred := []; body_limit := None |}.

(** The server calls [handlerUploadVideo] for a request on a machine with
    metadata store [d], filesystem [f] and object store [o]: how the call
    ends, and the machine it leaves. *)
Definition upload_video (E : Env) (cfg : apiConfig) (r : Request)
    (d : gmap N Video) (f : gmap string (list byte)) (o : list Object) : Exit * Machine :=
  serve (handlerUploadVideo E cfg r) (idle d f o).

(** The same for [handlerUploadThumbnail]. *)
Definition upload_thumbnail (E : Env) (cfg : apiConfig) (r : Request)
    (d : gmap N Video) (f : gmap string (list byte)) (o : list Object) : Exit * Machine :=
  serve (handlerUploadThumbnail E cfg r) (idle d f o).

(** ** The orientation categories, as the specification words them *)

Inductive Orientation := landscape | portrait | other.

(** The classification rule on a width and a height: landscape when
    [width == 16*height/9], else portrait when [height == 16*width/9], else
    other, with [int] multiplication and truncating [int] division. *)
Definition classify (width height : Z) : Orientation :=
  if width =? GoInt.quo (GoInt.mul 16 height) 9 then landscape
  else if height =? GoInt.quo (GoInt.mul 16 width) 9 then portrait
  else other.

(** The string [getVideoAspectRatio] returns for a category. *)
Definition ratio_name (o : Orientation) : string :=
  match o with
  | landscape => "16:9"
  | portrait => "9:16"
  | other => "other"
  end.

(** The key prefix the handler files a category under. *)
Definition category_name (o : Orientation) : string :=
  match o with
  | landscape => "landscape"
  | portrait => "portrait"
  | other => "other"
  end.

(** The dimensions of the last stream of [streams] whose type is ["video"],
    and [(0, 0)] when there is none. *)
Definition last_video_dims (streams : list Stream) : Z * Z :=
  match last (filter (fun s => CodecType s = "video") streams) with
  | Some s => (Width s, Height s)
  | None => (0, 0)
  end.

(** ** Observations on a finished run *)

(** The calls by the function called. *)
Inductive Call :=
| GetVideoCall | FormFileCall | CreateTempCall | CreateCall | CopyCall
| SeekCall | RandReadCall | ExecCall | PutObjectCall | UpdateVideoCall
| CloseCall | RemoveCall | PrintlnCall.

(** Whether [ev] is a call of [c]. *)
Definition is_a (c : Call) (ev : Event) : bool :=
  match c, ev with
  | GetVideoCall, EvGetVideo _ => true
  | FormFileCall, EvFormFile _ => true
  | CreateTempCall, EvCreateTemp _ => true
  | CreateCall, EvCreate _ => true
  | CopyCall, EvCopy _ _ => true
  | SeekCall, EvSeek _ => true
  | RandReadCall, EvRandRead _ => true
  | ExecCall, EvExec _ _ => true
  | PutObjectCall, EvPutObject _ _ _ => true
  | UpdateVideoCall, EvUpdateVideo _ => true
  | CloseCall, EvClose _ => true
  | RemoveCall, EvRemove _ => true
  | PrintlnCall, EvPrintln => true
  | _, _ => false
  end.

(** Some call of [c] was issued. *)
Definition issued (c : Call) (m : Machine) : bool := existsb (is_a c) (trace m).

(** No call of [c] was issued. *)
Definition never (c : Call) (m : Machine) : Prop :=
  forallb (fun ev => negb (is_a c ev)) (trace m) = true.

(** The status of the response, if one was written. *)
Definition status_of (m : Machine) : option Z := option_map status (response m).

(** The last [n] calls of a run. *)
Definition last_calls (n : nat) (m : Machine) : list Event :=
  drop (length (trace m) - n) (trace m).

(** ** The machine after a successful upload *)

(** The storage key of an upload whose random bytes come from [src] and
    whose probe output parsed as [data]. *)
Definition uploaded_key (src : nat -> byte) (data : FFProbeOutput) : string :=
  encodedVideoName_of
    (directory_of (ratio_of (fst (scan_streams (Streams data)))
                            (snd (scan_streams (Streams data)))))
    (map src (seq 0 32)) "mp4".

Definition uploaded_video (cfg : apiConfig) (video : Video) (src : nat -> byte)
    (data : FFProbeOutput) : Video :=
  set_VideoURL video (videoURL_of cfg (uploaded_key src data)).

Definition uploaded (cfg : apiConfig) (d : gmap N Video) (f : gmap string (list byte))
    (o : list Object) (videoId : UUID) (video : Video) (part : FilePart)
    (tempFile : string) (src : nat -> byte) (data : FFProbeOutput) : Machine :=
  {| db := <[ID video := uploaded_video cfg video src data]> d;
     fs := f;
     handles := [];
     s3 := o ++ [{| Bucket := s3Bucket cfg; Key := uploaded_key src data;
                    ContentType := "video/mp4"; Content := part_data part |}];
     trace := [EvGetVideo videoId; EvFormFile "video"; EvCreateTemp tempFile;
               EvCopy tempFile (length (part_data part)); EvSeek tempFile;
               EvRandRead 32; EvExec "ffprobe" (ffprobe_args tempFile);
               EvPutObject (s3Bucket cfg) (uploaded_key src data) "video/mp4";
               EvUpdateVideo (uploaded_video cfg video src data);
               EvClose (OSFile tempFile); EvRemove tempFile;
               EvClose (MultipartFile "video")];
     response := Some {| status := 200;
                         body := VideoBody (uploaded_video cfg video src data) |};
     deferred := [];
     body_limit := Some (2 ^ 30) |}.

(** ** Example inputs *)

Definition sample_cfg : apiConfig :=
  {| jwtSecret := "secret"; s3Bucket := "tubely"; s3Region := "us-east-2";
     assetsRoot := "./assets"; port := "8091" |}.

(** A record owned by user 1, with no video reference yet. *)
Definition sample_video : Video :=
  {| ID := 7%N; UserID := 1%N; VideoURL := None; ThumbnailURL := None;
     Title := "clip"; Description := "a clip" |}.

Definition sample_db : gmap N Video := {[ 7%N := sample_video ]}.

(** A JSON string literal. *)
Definition quoted (s : string) : string :=
  String (ascii_of_nat 34) s +:+ String (ascii_of_nat 34) EmptyString.

(** What the prober prints for a 1920x1080 video with an audio track. *)
Definition sample_probe_output : string :=
  "{" +:+ quoted "streams" +:+ ":[{" +:+ quoted "codec_type" +:+ ":" +:+ quoted "audio"
  +:+ "},{" +:+ quoted "codec_type" +:+ ":" +:+ quoted "video" +:+ ","
  +:+ quoted "width" +:+ ":1920," +:+ quoted "height" +:+ ":1080}]}".

Definition sample_data : FFProbeOutput :=
  {| Streams := [ {| CodecType := "audio"; Width := 0; Height := 0 |};
                  {| CodecType := "video"; Width := 1920; Height := 1080 |} ] |}.

(** The results of [json.Unmarshal] on the probe outputs of the examples:
    the output above, an object without streams, and anything else (the
    empty output among it), which does not parse. *)
Definition sample_Unmarshal (out : list byte) : option FFProbeOutput :=
  if String.eqb (string_of_list_byte out) sample_probe_output then Some sample_data
  else if String.eqb (string_of_list_byte out) "{}" then Some {| Streams := [] |}
  else None.

(** A prober run that prints [sample_probe_output]. *)
Definition sample_run : ProbeRun :=
  Exited (list_byte_of_string sample_probe_output) true.

(** A prober run that fails on its input and prints an object without
    streams. *)
Definition sample_run_no_streams : ProbeRun :=
  Exited (list_byte_of_string "{}") false.

Definition sample_temp : string := "/tmp/tubely-upload.mp4123456".

(** The bytes [crypto/rand] delivers in the examples. *)
Definition sample_rand (i : nat) : byte := default x00 (Byte.of_nat (7 * i + 3)).

(** An environment in which user 1 presents the token [alice] and user 2 the
    token [bob], the prober run is [probe], the upload to the store fails
    when [put_fails], and every other call succeeds; [mime.ParseMediaType]
    returns the non-empty values of the examples unchanged. *)
Definition sample_env (probe : ProbeRun) (put_fails : bool) : Env :=
  {| uuid_Parse := fun s => if String.eqb s "00000000-0000-0000-0000-000000000007"
                            then Some 7%N else None;
     UUID_String := fun _ => "00000000-0000-0000-0000-000000000007";
     GetBearerToken := fun h => snd <$> head h;
     ValidateJWT := fun token _ =>
       if String.eqb token "alice" then Some 1%N
       else if String.eqb token "bob" then Some 2%N
       else None;
     GetVideo_fails := false;
     ParseMediaType := fun v => if String.eqb v "" then None else Some v;
     CreateTemp_name := Some sample_temp;
     Copy_failure := None;
     crypto_rand := Some sample_rand;
     ffprobe := fun _ => probe;
     json_Unmarshal := sample_Unmarshal;
     PutObject_fails := put_fails;
     UpdateVideo_fails := false;
     filepath_Join := fun dir name => dir +:+ "/" +:+ name;
     Create_fails := false |}.

(** The file of the example requests, declared as [contentType]. *)
Definition sample_part (contentType : string) : FilePart :=
  {| part_ContentType := contentType; part_data := [x00; x00; x00; x18] |}.

(** A request for video 7 carrying the bearer token [token], whose form has
    one file, under both field names, declared as [contentType]; the form
    ends after [extent] bytes of a body of [len] bytes. *)
Definition sample_request (token : string) (contentType : string) (extent len : Z) : Request :=
  {| PathValue := fun _ => "00000000-0000-0000-0000-000000000007";
     Header := [("Authorization", token)];
     body_len := len;
     form_extent := extent;
     form_file := fun _ => Some (sample_part contentType) |}.

(** The example upload: the request of [sample_request] served in
    [sample_env] on a machine whose metadata store holds [sample_video] and
    whose filesystem and object store are empty. *)
Definition sample_upload (probe : ProbeRun) (put_fails : bool) (token contentType : string)
    (extent len : Z) : Exit * Machine :=
  upload_video (sample_env probe put_fails) sample_cfg
    (sample_request token contentType extent len) sample_db ∅ [].

(** ** Further observations and example inputs *)

(** The position of the first occurrence of [c] in [s]. *)
Fixpoint position (c : ascii) (s : string) : option nat :=
  match s with
  | EmptyString => None
  | String c' rest =>
      if Ascii.eqb c c' then Some O else option_map S (position c rest)
  end.

(** The function an event is a call of. *)
Definition call_of (ev : Event) : Call :=
  match ev with
  | EvGetVideo _ => GetVideoCall
  | EvFormFile _ => FormFileCall
  | EvCreateTemp _ => CreateTempCall
  | EvCreate _ => CreateCall
  | EvCopy _ _ => CopyCall
  | EvSeek _ => SeekCall
  | EvRandRead _ => RandReadCall
  | EvExec _ _ => ExecCall
  | EvPutObject _ _ _ => PutObjectCall
  | EvUpdateVideo _ => UpdateVideoCall
  | EvClose _ => CloseCall
  | EvRemove _ => RemoveCall
  | EvPrintln => PrintlnCall
  end.

(** The calls of [handlerUploadVideo] in the order of its statements, up to
    the response. *)
Definition video_pipeline : list Call :=
  [GetVideoCall; FormFileCall; CreateTempCall; CopyCall; SeekCall; RandReadCall;
   ExecCall; PutObjectCall; UpdateVideoCall].

(** The file [handlerUploadThumbnail] writes for a video and a declared
    extension: [filepath.Join(cfg.assetsRoot, videoID.String())] followed by
    a dot and the extension. *)
Definition thumbnail_path (E : Env) (cfg : apiConfig) (videoID : UUID)
    (fileExtension : string) : string :=
  filepath_Join E (assetsRoot cfg) (UUID_String E videoID) +:+ "." +:+ fileExtension.

(** The environment of the examples with three more failures: the metadata
    lookup fails when [lookup_fails], the copy fails after the bytes
    [copy_failure] names, the metadata update fails when [update_fails]. *)
Definition sample_env_with (lookup_fails : bool) (copy_failure : option nat)
    (update_fails : bool) : Env :=
  {| uuid_Parse := uuid_Parse (sample_env sample_run false);
     UUID_String := UUID_String (sample_env sample_run false);
     GetBearerToken := GetBearerToken (sample_env sample_run false);
     ValidateJWT := ValidateJWT (sample_env sample_run false);
     GetVideo_fails := lookup_fails;
     ParseMediaType := ParseMediaType (sample_env sample_run false);
     CreateTemp_name := CreateTemp_name (sample_env sample_run false);
     Copy_failure := copy_failure;
     crypto_rand := crypto_rand (sample_env sample_run false);
     ffprobe := ffprobe (sample_env sample_run false);
     json_Unmarshal := json_Unmarshal (sample_env sample_run false);
     PutObject_fails := false;
     UpdateVideo_fails := update_fails;
     filepath_Join := filepath_Join (sample_env sample_run false);
     Create_fails := false |}.

(** A request for video 7 by [alice] whose form has no file at all. *)
Definition sample_request_without_file : Request :=
  {| PathValue := fun _ => "00000000-0000-0000-0000-000000000007";
     Header := [("Authorization", "alice")];
     body_len := 64;
     form_extent := 64;
     form_file := fun _ => None |}.

(** The example thumbnail upload: the request of [sample_request] served by
    [handlerUploadThumbnail] in the environment [E] on the example machine. *)
Definition sample_thumbnail (E : Env) (token contentType : string) : Exit * Machine :=
  upload_thumbnail E sample_cfg (sample_request token contentType 4096 4096)
    sample_db ∅ [].


(** * Properties *)

(** ** Integer arithmetic *)

Lemma GoInt_wrap_small z : GoInt.in_range z -> GoInt.wrap z = z.
Proof.
  unfold GoInt.in_range, GoInt.wrap, GoInt.min_int, GoInt.max_int. intros Hz.
  rewrite Z.mod_small by lia. lia.
Qed.

(** Without overflow and on non-negative operands, [16*x/9] on [int] is the
    floor of the rational [16x/9]. *)
Lemma GoInt_sixteen_ninths x :
  0 <= x < 2 ^ 59 -> GoInt.quo (GoInt.mul 16 x) 9 = (16 * x) / 9.
Proof.
  intros Hx. unfold GoInt.quo, GoInt.mul.
  rewrite (GoInt_wrap_small (16 * x))
    by (unfold GoInt.in_range, GoInt.min_int, GoInt.max_int; lia).
  rewrite Z.quot_div_nonneg by lia.
  apply GoInt_wrap_small. unfold GoInt.in_range, GoInt.min_int, GoInt.max_int.
  pose proof (Z.div_pos (16 * x) 9 ltac:(lia) ltac:(lia)).
  pose proof (Z.div_le_upper_bound (16 * x) 9 (2 ^ 63 - 1) ltac:(lia) ltac:(lia)).
  lia.
Qed.

(** ** Splitting *)

Lemma Split_nonempty s sep : Strings.Split s sep <> [].
Proof.
  induction s as [|c rest IH]; simpl; [done|].
  destruct (Ascii.eqb c sep); [done|].
  destruct (Strings.Split rest sep); done.
Qed.

(** A string without the separator is returned whole, as the only piece. *)
Lemma Split_no_sep s sep :
  Strings.Contains s sep = false -> Strings.Split s sep = [s].
Proof.
  induction s as [|c rest IH]; simpl; [done|].
  intros H. apply orb_false_iff in H as [Hc Hrest].
  rewrite Hc, (IH Hrest). done.
Qed.

(** A string with the separator has a piece at index 1. *)
Lemma Split_has_second s sep :
  Strings.Contains s sep = true -> is_Some (Strings.Split s sep !! 1%nat).
Proof.
  induction s as [|c rest IH]; simpl; [done|].
  destruct (Ascii.eqb c sep) eqn:Hc; simpl.
  - intros _. pose proof (Split_nonempty rest sep).
    destruct (Strings.Split rest sep); [done | eauto].
  - intros H. specialize (IH H).
    destruct (Strings.Split rest sep) as [|p ps]; [by destruct IH|]. exact IH.
Qed.

(** ** Encoding *)

Lemma digit_url_safe v : exists v', 0 <= v' < 64 /\ Base64.digit v = Base64.digit v'.
Proof.
  exists (Z.land v 63). split.
  - change 63 with (Z.ones 6). rewrite Z.land_ones by lia.
    apply Z.mod_pos_bound. lia.
  - unfold Base64.digit. rewrite <- Z.land_assoc. reflexivity.
Qed.

Lemma EncodeToString_url_safe src : Base64.url_safe (Base64.EncodeToString src).
Proof.
  induction src as [src IH] using (induction_ltof1 _ (@length byte)).
  unfold ltof in IH.
  destruct src as [|a [|b [|c rest]]]; simpl;
    repeat split; auto using digit_url_safe.
  apply IH. simpl. lia.
Qed.



(** ** The stream loop *)

Lemma scan_streams_from streams dims :
  fold_left
    (fun dims stream =>
       if String.eqb (CodecType stream) "video"
       then (Width stream, Height stream) else dims)
    streams dims
  = match last (filter (fun s => CodecType s = "video") streams) with
    | Some s => (Width s, Height s)
    | None => dims
    end.
Proof.
  revert dims. induction streams as [|s streams IH]; intros dims; [done|].
  cbn [fold_left]. rewrite IH, filter_cons.
  destruct (String.eqb_spec (CodecType s) "video") as [Heq|Hne].
  - rewrite decide_True by done. rewrite last_cons.
    by destruct (last (filter _ streams)).
  - by rewrite decide_False by done.
Qed.

(** The loop keeps the dimensions of the last video stream. *)
Lemma scan_streams_last streams : scan_streams streams = last_video_dims streams.
Proof. apply scan_streams_from. Qed.

Lemma ratio_of_classify width height :
  ratio_of width height = ratio_name (classify width height).
Proof.
  unfold ratio_of, classify.
  destruct (width =? _); [done|]. by destruct (height =? _).
Qed.

Lemma directory_of_category o : directory_of (ratio_name o) = category_name o.
Proof. by destruct o. Qed.

(** ** The classifier as a function of the parsed probe output *)

Lemma getVideoAspectRatio_result E filePath m :
  fst (getVideoAspectRatio E filePath m)
  = Next (option_map
            (fun data =>
               ratio_name (classify (fst (last_video_dims (Streams data)))
                                    (snd (last_video_dims (Streams data)))))
            (json_Unmarshal E (Stdout (ffprobe E (ffprobe_args filePath))))).
Proof.
  unfold getVideoAspectRatio, bind, Run. cbn [fst].
  destruct (json_Unmarshal E _) as [data|]; [|done].
  cbn [option_map]. rewrite scan_streams_last.
  destruct (last_video_dims (Streams data)) as [w h]. cbn [fst snd ret].
  by rewrite ratio_of_classify.
Qed.

(** ** C1: the classification *)

(** C1.  The result of [getVideoAspectRatio] is determined by the width and
    height of the last video-typed stream of the parsed probe output (zero
    and zero when there is none) through the rule: ["16:9"] (landscape) when
    [width == 16*height/9], else ["9:16"] (portrait) when
    [height == 16*width/9], else ["other"], and the handler files each result
    under the category of the same name.  For dimensions below [2^59] the
    [int] expression [16*x/9] is the truncated quotient of the integers.
    [classify 1920 1080] is landscape, [classify 1080 1920] is portrait,
    [classify 1000 1000] is other. *)
Theorem getVideoAspectRatio_classifies :
  (forall E filePath m,
      fst (getVideoAspectRatio E filePath m)
      = Next (option_map
                (fun data =>
                   ratio_name (classify (fst (last_video_dims (Streams data)))
                                        (snd (last_video_dims (Streams data)))))
                (json_Unmarshal E (Stdout (ffprobe E (ffprobe_args filePath))))))
  /\ (forall o, directory_of (ratio_name o) = category_name o)
  /\ (forall w h, 0 <= w < 2 ^ 59 -> 0 <= h < 2 ^ 59 ->
        classify w h
        = if w =? 16 * h / 9 then landscape
          else if h =? 16 * w / 9 then portrait
          else other)
  /\ classify 1920 1080 = landscape
  /\ classify 1080 1920 = portrait
  /\ classify 1000 1000 = other.
Proof.
  split; [|split; [|split; [|by vm_compute]]].
  - apply getVideoAspectRatio_result.
  - apply directory_of_category.
  - intros w h Hw Hh. unfold classify.
    by rewrite !GoInt_sixteen_ninths.
Qed.

Lemma getVideoAspectRatio_classifies_witness :
  classify 1920 1080
  = if 1920 =? 16 * 1080 / 9 then landscape
    else if 1080 =? 16 * 1920 / 9 then portrait
    else other.
Proof.
  apply (proj1 (proj2 (proj2 getVideoAspectRatio_classifies)) 1920 1080); lia.
Defined.

(** ** Running a handler symbolically *)

Ltac unfold_calls :=
  unfold upload_video, serve, handlerUploadVideo, getVideoAspectRatio,
    or_respond, index, respondWithError, respondWithJSON, MaxBytesReader,
    FormFile, GetVideo, UpdateVideo, CreateTemp, Copy, Seek, rand_Read, Run,
    PutObject, defer, modify, return_, panic, bind, ret, idle.

Ltac reduce_state :=
  cbv beta iota delta
    [with_db with_fs with_handles with_s3 with_response with_deferred
     with_body_limit log Close Remove run_deferred
     db fs handles s3 trace response deferred body_limit].

Ltac reduce_calls :=
  cbn [fst snd over_limit negb option_map app fold_left run_call List.filter
       Handle_eqb].

Ltac reduce :=
  reduce_state; reduce_calls;
  reduce_state; reduce_calls;
  rewrite ?String.eqb_refl, ?N.eqb_refl;
  reduce_calls.

(** Rewrite with the outcomes the hypotheses fix. *)
Ltac use_facts :=
  repeat match goal with
         | H : ?x = _ |- context [?x] => rewrite H
         end.

(** Follow the one path the hypotheses select. *)
Ltac run := unfold_calls; repeat (reduce; progress use_facts); reduce.

(** Name the result of the run the goal is about: the goal becomes
    [run = result -> P result]. *)
Ltac name_result :=
  unfold upload_video;
  match goal with
  | |- context [serve ?h ?m] =>
      let result := fresh "result" in
      let H := fresh "Hresult" in
      remember (serve h m) as result eqn:H;
      symmetry in H; revert H
  end.

(** Split on the outcome of the next call that decides the path; the
    outcome is recorded under [id], apart from the equations [use_facts]
    rewrites with. *)
Ltac branch :=
  lazymatch goal with
  | |- ?run = _ -> _ =>
      match run with
      | context [match ?x with _ => _ end] =>
          lazymatch x with
          | context [match _ with _ => _ end] => fail
          | _ =>
              let H := fresh "Hpath" in
              destruct x eqn:H;
              match type of H with ?P => change (id P) in H end
          end
      end
  end.

(** Follow every path the hypotheses leave open, and state the goal on
    the result of each. *)
Ltac explore :=
  name_result; unfold_calls;
  repeat (reduce; first [progress use_facts | branch]);
  reduce; intros <-; unfold id in *.

(** Decide a property of the calls of a finished run. *)
Ltac observe :=
  unfold never, issued; reduce;
  cbn [forallb existsb andb orb negb length Nat.sub drop is_a].

(** Settle a closed side condition by evaluation. *)
Ltac evaluate := vm_compute; first [reflexivity | discriminate | done].

(** ** Auxiliary facts *)

(** Removing a file that was created afresh gives back the filesystem. *)
Lemma temp_removed (f : gmap string (list byte)) name a b :
  f !! name = None -> delete name (<[name := a]> (<[name := b]> f)) = f.
Proof. intros H. rewrite !delete_insert_eq. by apply delete_id. Qed.

Lemma limit_not_exceeded extent :
  extent <= 2 ^ 30 -> (Z.shiftl 1 30 <? extent) = false.
Proof. intros H. apply Z.ltb_ge. exact H. Qed.


Lemma uploaded_key_category src data :
  uploaded_key src data
  = category_name (classify (fst (last_video_dims (Streams data)))
                            (snd (last_video_dims (Streams data))))
    +:+ "/" +:+ Base64.EncodeToString (map src (seq 0 32)) +:+ "." +:+ "mp4".
Proof.
  unfold uploaded_key, encodedVideoName_of.
  rewrite scan_streams_last, ratio_of_classify, directory_of_category.
  by destruct (classify _ _).
Qed.

Lemma no_video_dims streams :
  Forall (fun s => CodecType s <> "video") streams ->
  last_video_dims streams = (0, 0).
Proof.
  intros Hnone. unfold last_video_dims.
  replace (filter (fun s => CodecType s = "video") streams) with (@nil Stream); [done|].
  induction Hnone as [|s streams Hs _ IH]; [done|].
  rewrite filter_cons, decide_False by done. exact IH.
Qed.


(** ** One request to [handlerUploadVideo] *)

Section Upload.

Context (E : Env) (cfg : apiConfig) (r : Request).
Context (d : gmap N Video) (f : gmap string (list byte)) (o : list Object).

Local Abbreviation result := (upload_video E cfg r d f o).

(** When every step succeeds the handler finishes in the machine
    [uploaded]: the object is stored, the record updated, the response
    written, the staged file closed and removed. *)
Lemma upload_succeeds videoId jwt video part tempFile src data :
  uuid_Parse E (PathValue r "videoID") = Some videoId ->
  GetBearerToken E (Header r) = Some jwt ->
  ValidateJWT E jwt (jwtSecret cfg) = Some (UserID video) ->
  GetVideo_fails E = false ->
  d !! videoId = Some video ->
  form_extent r <= 2 ^ 30 ->
  form_file r "video" = Some part ->
  ParseMediaType E (part_ContentType part) = Some "video/mp4" ->
  CreateTemp_name E = Some tempFile ->
  f !! tempFile = None ->
  Copy_failure E = None ->
  crypto_rand E = Some src ->
  json_Unmarshal E (Stdout (ffprobe E (ffprobe_args tempFile))) = Some data ->
  PutObject_fails E = false ->
  UpdateVideo_fails E = false ->
  result = (Finished, uploaded cfg d f o videoId video part tempFile src data).
Proof.
  intros Hid Htok Hjwt Hget Hd Hext Hform Hmime Htmp Hfresh Hcopy Hrand Hjson Hput Hupd.
  apply limit_not_exceeded in Hext.
  run. cbn [Strings.Split Ascii.eqb Bool.eqb lookup list_lookup String.eqb]. run.
  unfold uploaded, uploaded_video, uploaded_key.
  destruct (scan_streams (Streams data)) as [w h]. reduce.
  rewrite lookup_insert_eq, temp_removed by done. reflexivity.
Qed.

(** A declared media type that has a slash and is not [video/mp4] is
    rejected with 400 before anything is staged. *)
Lemma other_media_type_rejected videoId jwt video part mediaType :
  uuid_Parse E (PathValue r "videoID") = Some videoId ->
  GetBearerToken E (Header r) = Some jwt ->
  ValidateJWT E jwt (jwtSecret cfg) = Some (UserID video) ->
  GetVideo_fails E = false ->
  d !! videoId = Some video ->
  form_extent r <= 2 ^ 30 ->
  form_file r "video" = Some part ->
  ParseMediaType E (part_ContentType part) = Some mediaType ->
  Strings.Contains mediaType "/" = true ->
  mediaType <> "video/mp4" ->
  result
  = (Finished,
     {| db := d; fs := f; handles := []; s3 := o;
        trace := [EvGetVideo videoId; EvFormFile "video";
                  EvClose (MultipartFile "video")];
        response := Some {| status := 400; body := ErrorBody "Invalid file upload" |};
        deferred := [];
        body_limit := Some (2 ^ 30) |}).
Proof.
  intros Hid Htok Hjwt Hget Hd Hext Hform Hmime Hslash Hother.
  apply limit_not_exceeded in Hext.
  destruct (Split_has_second _ _ Hslash) as [extension Hsplit].
  apply String.eqb_neq in Hother.
  run. reflexivity.
Qed.

(** C2.  When the authenticated caller's user identity differs from the
    owning-user identity of the target record, the handler answers 401 and
    stops: the only call it has issued is the lookup of the record; the form
    is not read, no temporary file is created, [PutObject] and [UpdateVideo]
    are not called, and the metadata store, the filesystem and the object
    store are as before. *)
Theorem not_owner_unauthorized videoId jwt userId video :
  uuid_Parse E (PathValue r "videoID") = Some videoId ->
  GetBearerToken E (Header r) = Some jwt ->
  ValidateJWT E jwt (jwtSecret cfg) = Some userId ->
  GetVideo_fails E = false ->
  d !! videoId = Some video ->
  UserID video <> userId ->
  upload_video E cfg r d f o
  = (Finished,
     {| db := d; fs := f; handles := []; s3 := o;
        trace := [EvGetVideo videoId];
        response := Some {| status := 401; body := ErrorBody "User not authorized" |};
        deferred := [];
        body_limit := Some (2 ^ 30) |}).
Proof.
  intros Hid Htok Hjwt Hget Hd Hown.
  apply N.eqb_neq in Hown.
  run. reflexivity.
Qed.


(** C4.  In every request in which [PutObject] is called and fails, the
    handler answers 500 without calling [UpdateVideo]: the metadata store
    is identical before and after the request (so a record whose video
    reference was unset still has it unset), and nothing was added to the
    object store. *)
Theorem put_failure_keeps_record :
  PutObject_fails E = true ->
  issued PutObjectCall (snd result) = true ->
  fst result = Finished
  /\ response (snd result)
     = Some {| status := 500; body := ErrorBody "Couldn't upload to S3" |}
  /\ never UpdateVideoCall (snd result)
  /\ db (snd result) = d
  /\ (forall id video, d !! id = Some video -> VideoURL video = None ->
        VideoURL <$> db (snd result) !! id = Some None)
  /\ s3 (snd result) = o.
Proof.
  intros Hput.
  explore.
  all: observe; intros Hcalled; try discriminate.
  all: repeat split.
  all: intros id video Hd Hurl; by rewrite Hd, <- Hurl.
Qed.

(** C6.  Provided [json.Unmarshal] rejects the empty input, the classifier
    fails exactly when the probing subprocess could not be started or its
    standard output does not parse; a result of ["other"] is only returned
    for an output that parsed and whose dimensions classify as other.  A
    request that runs the prober is answered 500 ("Couldn't get aspect
    ratio") exactly in that case, and then neither [PutObject] nor
    [UpdateVideo] is called and the stores are unchanged. *)
Theorem probe_failure_surfaces tempFile :
  json_Unmarshal E [] = None ->
  CreateTemp_name E = Some tempFile ->
  let probe := ffprobe E (ffprobe_args tempFile) in
  let failed := probe = NotStarted \/ json_Unmarshal E (Stdout probe) = None in
  (forall m, fst (getVideoAspectRatio E tempFile m) = Next None <-> failed)
  /\ (forall m, fst (getVideoAspectRatio E tempFile m) = Next (Some "other") ->
        exists data,
          json_Unmarshal E (Stdout probe) = Some data
          /\ classify (fst (last_video_dims (Streams data)))
                      (snd (last_video_dims (Streams data))) = other)
  /\ (issued ExecCall (snd result) = true ->
        (response (snd result)
         = Some {| status := 500; body := ErrorBody "Couldn't get aspect ratio" |}
         <-> failed)
        /\ (failed ->
              never PutObjectCall (snd result)
              /\ never UpdateVideoCall (snd result)
              /\ db (snd result) = d
              /\ s3 (snd result) = o)).
Proof.
  intros Hempty Htmp. cbv zeta.
  assert (Hfailed : ffprobe E (ffprobe_args tempFile) = NotStarted
                    \/ json_Unmarshal E (Stdout (ffprobe E (ffprobe_args tempFile))) = None
                    <-> json_Unmarshal E (Stdout (ffprobe E (ffprobe_args tempFile))) = None).
  { split; [|by right]. intros [Hrun|Hparse]; [|done]. by rewrite Hrun. }
  pose proof (getVideoAspectRatio_result E tempFile) as Hclassifier.
  destruct (json_Unmarshal E (Stdout (ffprobe E (ffprobe_args tempFile))))
    as [data|] eqn:Hparse; cbn [option_map] in Hclassifier.
  - assert (Hok : ~ (ffprobe E (ffprobe_args tempFile) = NotStarted \/ Some data = None)).
    { intros Hf. apply Hfailed in Hf. discriminate. }
    split; [|split].
    + intros m. rewrite Hclassifier. split; [discriminate | by intros Hf].
    + intros m. rewrite Hclassifier. intros [= Hname]. exists data. split; [done|].
      by destruct (classify _ _).
    + explore.
      all: observe; intros Hrun; try discriminate.
      all: split; [split; [discriminate | by intros Hf] | by intros Hf].
  - split; [|split].
    + intros m. rewrite Hclassifier. split; [by right | done].
    + intros m. rewrite Hclassifier. discriminate.
    + explore.
      all: observe; intros Hrun; try discriminate.
      all: split; [split; [by right | done] | by intros _].
Qed.


(** C8.  In every request that creates the staged temporary file, whatever
    happens afterwards (a failed copy, a failed read of random bytes, a
    failed classification, a failed upload, a failed metadata write, or
    success), the last calls of the handler are the deferred ones: the
    staged file's handle is closed, the file is removed, and the multipart
    file is closed.  Afterwards the file is absent, no handle is open, and
    the filesystem is as it was before the request. *)
Theorem staged_file_released :
  issued CreateTempCall (snd result) = true ->
  exists tempFile,
    CreateTemp_name E = Some tempFile
    /\ fst result = Finished
    /\ last_calls 3 (snd result)
       = [EvClose (OSFile tempFile); EvRemove tempFile; EvClose (MultipartFile "video")]
    /\ fs (snd result) !! tempFile = None
    /\ handles (snd result) = []
    /\ deferred (snd result) = []
    /\ fs (snd result) = f.
Proof.
  explore.
  all: unfold last_calls; observe; intros Hcreated; try discriminate.
  all: eexists; split; [reflexivity|].
  all: rewrite temp_removed by assumption.
  all: repeat split; assumption.
Qed.

(** C9.  When the probe output parses but holds no video-typed stream, the
    width and height stay zero, [getVideoAspectRatio] returns ["16:9"]
    (because [0 == 16*0/9]) without an error, and a request in which every
    other step succeeds is stored under a key in [landscape/] and answered
    200 with a URL in [landscape/]. *)
Theorem no_video_stream_is_landscape videoId jwt video part tempFile src data :
  uuid_Parse E (PathValue r "videoID") = Some videoId ->
  GetBearerToken E (Header r) = Some jwt ->
  ValidateJWT E jwt (jwtSecret cfg) = Some (UserID video) ->
  GetVideo_fails E = false ->
  d !! videoId = Some video ->
  form_extent r <= 2 ^ 30 ->
  form_file r "video" = Some part ->
  ParseMediaType E (part_ContentType part) = Some "video/mp4" ->
  CreateTemp_name E = Some tempFile ->
  f !! tempFile = None ->
  Copy_failure E = None ->
  crypto_rand E = Some src ->
  json_Unmarshal E (Stdout (ffprobe E (ffprobe_args tempFile))) = Some data ->
  PutObject_fails E = false ->
  UpdateVideo_fails E = false ->
  Forall (fun s => CodecType s <> "video") (Streams data) ->
  let key := "landscape/" +:+ Base64.EncodeToString (map src (seq 0 32)) +:+ ".mp4" in
  let url := "https://" +:+ s3Bucket cfg +:+ ".s3." +:+ s3Region cfg
             +:+ ".amazonaws.com/" +:+ key in
  scan_streams (Streams data) = (0, 0)
  /\ (forall m, fst (getVideoAspectRatio E tempFile m) = Next (Some "16:9"))
  /\ fst result = Finished
  /\ s3 (snd result)
     = o ++ [{| Bucket := s3Bucket cfg; Key := key; ContentType := "video/mp4";
                Content := part_data part |}]
  /\ response (snd result)
     = Some {| status := 200; body := VideoBody (set_VideoURL video url) |}.
Proof.
  intros Hid Htok Hjwt Hget Hd Hext Hform Hmime Htmp Hfresh Hcopy Hrand Hjson Hput Hupd Hnone.
  cbv zeta.
  pose proof (no_video_dims _ Hnone) as Hdims.
  split; [by rewrite scan_streams_last|].
  split.
  { intros m. unfold getVideoAspectRatio, bind, Run. cbn [fst].
    rewrite Hjson, scan_streams_last, Hdims. reflexivity. }
  rewrite (upload_succeeds videoId jwt video part tempFile src data) by assumption.
  unfold uploaded, uploaded_video, videoURL_of. cbn [fst snd response s3].
  rewrite uploaded_key_category, Hdims.
  repeat split.
Qed.

(** C10.  When the part's declared [Content-Type] parses to a media type
    without a slash, [strings.Split(mediaType, "/")] has one element and
    indexing element 1 panics before the [video/mp4] check is reached: the
    handler writes no response (in particular no 400), and only the
    deferred close of the multipart file runs.  The thumbnail handler
    indexes the split of the raw header value the same way and panics on a
    value without a slash. *)
Theorem slashless_media_type_panics videoId jwt video part :
  uuid_Parse E (PathValue r "videoID") = Some videoId ->
  GetBearerToken E (Header r) = Some jwt ->
  ValidateJWT E jwt (jwtSecret cfg) = Some (UserID video) ->
  GetVideo_fails E = false ->
  d !! videoId = Some video ->
  (forall mediaType,
      form_extent r <= 2 ^ 30 ->
      form_file r "video" = Some part ->
      ParseMediaType E (part_ContentType part) = Some mediaType ->
      Strings.Contains mediaType "/" = false ->
      mediaType <> "video/mp4"
      /\ result
         = (Panicked "index out of range",
            {| db := d; fs := f; handles := []; s3 := o;
               trace := [EvGetVideo videoId; EvFormFile "video";
                         EvClose (MultipartFile "video")];
               response := None;
               deferred := [];
               body_limit := Some (2 ^ 30) |}))
  /\ (form_file r "thumbnail" = Some part ->
      Strings.Contains (part_ContentType part) "/" = false ->
      upload_thumbnail E cfg r d f o
      = (Panicked "index out of range",
         {| db := d; fs := f; handles := []; s3 := o;
            trace := [EvPrintln; EvFormFile "thumbnail"; EvGetVideo videoId;
                      EvClose (MultipartFile "thumbnail")];
            response := None;
            deferred := [];
            body_limit := None |})).
Proof.
  intros Hid Htok Hjwt Hget Hd. split.
  - intros mediaType Hext Hform Hmime Hslash.
    apply limit_not_exceeded in Hext.
    pose proof (Split_no_sep _ _ Hslash) as Hsplit.
    split; [by intros -> |].
    run. reflexivity.
  - intros Hform Hslash.
    pose proof (Split_no_sep _ _ Hslash) as Hsplit.
    unfold upload_thumbnail, handlerUploadThumbnail, Create.
    run. reflexivity.
Qed.

End Upload.

(** ** The theorems at the example inputs *)

Lemma not_owner_unauthorized_witness :
  sample_upload sample_run false "bob" "video/mp4" 4096 4096
  = (Finished,
     {| db := sample_db; fs := ∅; handles := []; s3 := [];
        trace := [EvGetVideo 7%N];
        response := Some {| status := 401; body := ErrorBody "User not authorized" |};
        deferred := [];
        body_limit := Some (2 ^ 30) |}).
Proof.
  apply (not_owner_unauthorized (sample_env sample_run false) sample_cfg
           (sample_request "bob" "video/mp4" 4096 4096) sample_db ∅ []
           7%N "bob" 2%N sample_video);
    evaluate.
Defined.



Lemma put_failure_keeps_record_witness :
  status_of (snd (sample_upload sample_run true "alice" "video/mp4" 4096 4096)) = Some 500
  /\ db (snd (sample_upload sample_run true "alice" "video/mp4" 4096 4096)) = sample_db.
Proof.
  pose proof (put_failure_keeps_record (sample_env sample_run true) sample_cfg
                (sample_request "alice" "video/mp4" 4096 4096) sample_db ∅ []
                ltac:(evaluate) ltac:(evaluate))
    as (_ & Hresponse & _ & Hdb & _).
  split; [|exact Hdb].
  unfold status_of, sample_upload. rewrite Hresponse. reflexivity.
Defined.

Lemma probe_failure_surfaces_witness :
  response (snd (sample_upload NotStarted false "alice" "video/mp4" 4096 4096))
  = Some {| status := 500; body := ErrorBody "Couldn't get aspect ratio" |}
  /\ never PutObjectCall
       (snd (sample_upload NotStarted false "alice" "video/mp4" 4096 4096)).
Proof.
  pose proof (probe_failure_surfaces (sample_env NotStarted false) sample_cfg
                (sample_request "alice" "video/mp4" 4096 4096) sample_db ∅ []
                sample_temp ltac:(evaluate) ltac:(evaluate))
    as (_ & _ & Hrequest).
  cbv zeta in Hrequest. destruct (Hrequest ltac:(evaluate)) as [Hresponse Hstores].
  split.
  - apply Hresponse. left. reflexivity.
  - apply Hstores. left. reflexivity.
Defined.


Lemma staged_file_released_witness :
  status_of (snd (sample_upload NotStarted false "alice" "video/mp4" 4096 4096)) = Some 500
  /\ fs (snd (sample_upload NotStarted false "alice" "video/mp4" 4096 4096)) = ∅
  /\ handles (snd (sample_upload NotStarted false "alice" "video/mp4" 4096 4096)) = [].
Proof.
  assert (Hcreated : issued CreateTempCall
                       (snd (sample_upload NotStarted false "alice" "video/mp4" 4096 4096))
                     = true) by evaluate.
  destruct (staged_file_released (sample_env NotStarted false) sample_cfg
              (sample_request "alice" "video/mp4" 4096 4096) sample_db ∅ [] Hcreated)
    as (tempFile & _ & _ & _ & _ & Hhandles & _ & Hfs).
  split; [evaluate|]. split; [exact Hfs | exact Hhandles].
Defined.

Lemma no_video_stream_is_landscape_witness :
  fst (sample_upload sample_run_no_streams false "alice" "video/mp4" 4096 4096) = Finished
  /\ (Key <$> s3 (snd (sample_upload sample_run_no_streams false "alice" "video/mp4"
                         4096 4096)))
     = ["landscape/AwoRGB8mLTQ7QklQV15lbHN6gYiPlp2kq7K5wMfO1dw.mp4"].
Proof.
  pose proof (no_video_stream_is_landscape
                (sample_env sample_run_no_streams false) sample_cfg
                (sample_request "alice" "video/mp4" 4096 4096) sample_db ∅ []
                7%N "alice" sample_video (sample_part "video/mp4") sample_temp
                sample_rand {| Streams := [] |}
                ltac:(evaluate) ltac:(evaluate) ltac:(evaluate) ltac:(evaluate)
                ltac:(evaluate) ltac:(evaluate) ltac:(evaluate) ltac:(evaluate)
                ltac:(evaluate) ltac:(evaluate) ltac:(evaluate) ltac:(evaluate)
                ltac:(evaluate) ltac:(evaluate) ltac:(evaluate)
                ltac:(constructor))
    as (_ & _ & Hexit & Hstore & _).
  split; [exact Hexit|].
  unfold sample_upload. rewrite Hstore. reflexivity.
Defined.

Lemma slashless_media_type_panics_witness :
  fst (sample_upload sample_run false "alice" "mp4" 4096 4096)
  = Panicked "index out of range"
  /\ fst (upload_thumbnail (sample_env sample_run false) sample_cfg
            (sample_request "alice" "mp4" 4096 4096) sample_db ∅ [])
     = Panicked "index out of range".
Proof.
  pose proof (slashless_media_type_panics (sample_env sample_run false) sample_cfg
                (sample_request "alice" "mp4" 4096 4096) sample_db ∅ []
                7%N "alice" sample_video (sample_part "mp4")
                ltac:(evaluate) ltac:(evaluate) ltac:(evaluate) ltac:(evaluate)
                ltac:(evaluate))
    as [Hvideo Hthumbnail].
  destruct (Hvideo "mp4" ltac:(evaluate) ltac:(evaluate) ltac:(evaluate) ltac:(evaluate))
    as [_ Hrun].
  split.
  - unfold sample_upload. rewrite Hrun. reflexivity.
  - rewrite (Hthumbnail ltac:(evaluate) ltac:(evaluate)). reflexivity.
Defined.

(** C5.  The part declared as [mp4] parses to the media type [mp4], which
    is not [video/mp4]; the handler does not reject it with 400 but panics
    at the extension derivation, and no response is written. *)
Theorem slashless_media_type_not_rejected :
  ParseMediaType (sample_env sample_run false) "mp4" = Some "mp4"
  /\ fst (sample_upload sample_run false "alice" "mp4" 4096 4096)
     = Panicked "index out of range"
  /\ response (snd (sample_upload sample_run false "alice" "mp4" 4096 4096)) = None
  /\ status_of (snd (sample_upload sample_run false "alice" "mp4" 4096 4096)) <> Some 400
  /\ never ExecCall (snd (sample_upload sample_run false "alice" "mp4" 4096 4096))
  /\ never PutObjectCall (snd (sample_upload sample_run false "alice" "mp4" 4096 4096))
  /\ never UpdateVideoCall (snd (sample_upload sample_run false "alice" "mp4" 4096 4096)).
Proof. repeat split; evaluate. Qed.

(** * Further properties of the handlers *)

(** ** The comparisons of [getVideoAspectRatio] *)

Lemma landscape_iff w h :
  0 <= w < 2 ^ 59 -> 0 <= h < 2 ^ 59 ->
  classify w h = landscape <-> 9 * w <= 16 * h <= 9 * w + 8.
Proof.
  intros Hw Hh. unfold classify. rewrite !GoInt_sixteen_ninths by done.
  pose proof (Z.div_mod (16 * h) 9 ltac:(lia)).
  pose proof (Z.mod_pos_bound (16 * h) 9 ltac:(lia)).
  destruct (Z.eqb_spec w (16 * h / 9)); [split; [lia | done]|].
  split; [|lia]. by destruct (h =? 16 * w / 9).
Qed.

Lemma portrait_iff w h :
  0 <= w < 2 ^ 59 -> 0 <= h < 2 ^ 59 ->
  classify w h = portrait
  <-> ~ (9 * w <= 16 * h <= 9 * w + 8) /\ 9 * h <= 16 * w <= 9 * h + 8.
Proof.
  intros Hw Hh. pose proof (landscape_iff w h Hw Hh) as Hl. revert Hl.
  unfold classify. rewrite !GoInt_sixteen_ninths by done.
  pose proof (Z.div_mod (16 * w) 9 ltac:(lia)).
  pose proof (Z.mod_pos_bound (16 * w) 9 ltac:(lia)).
  destruct (Z.eqb_spec w (16 * h / 9)).
  - intros Hl. split; [done|]. intros [Hn _]. destruct Hn. by apply Hl.
  - destruct (Z.eqb_spec h (16 * w / 9)); intros Hl.
    + split; [|done]. intros _. split; [|lia]. intros Hb. by apply Hl in Hb.
    + split; [done|]. lia.
Qed.

Lemma ratio_of_orientation w h o :
  ratio_of w h = ratio_name o <-> classify w h = o.
Proof.
  rewrite ratio_of_classify. split; [|by intros ->].
  by destruct (classify w h), o.
Qed.

(** X1.  For dimensions below [2^59] the exact-match tests of
    [getVideoAspectRatio] are bands: the result is [16:9] exactly when
    [9*width <= 16*height <= 9*width + 8], it is [9:16] exactly when that
    fails and [9*height <= 16*width <= 9*height + 8], and it is [other]
    exactly outside the two bands. *)
Theorem aspect_ratio_bands w h :
  0 <= w < 2 ^ 59 -> 0 <= h < 2 ^ 59 ->
  (ratio_of w h = "16:9" <-> 9 * w <= 16 * h <= 9 * w + 8)
  /\ (ratio_of w h = "9:16"
      <-> ~ (9 * w <= 16 * h <= 9 * w + 8) /\ 9 * h <= 16 * w <= 9 * h + 8)
  /\ (ratio_of w h = "other"
      <-> ~ (9 * w <= 16 * h <= 9 * w + 8) /\ ~ (9 * h <= 16 * w <= 9 * h + 8)).
Proof.
  intros Hw Hh.
  pose proof (landscape_iff w h Hw Hh) as Hl.
  pose proof (portrait_iff w h Hw Hh) as Hp.
  rewrite <- (ratio_of_orientation w h landscape) in Hl.
  rewrite <- (ratio_of_orientation w h portrait) in Hp.
  cbn [ratio_name] in Hl, Hp.
  split; [exact Hl|]. split; [exact Hp|].
  rewrite (ratio_of_classify w h) in *.
  destruct (classify w h); cbn [ratio_name] in *.
  - split; [done|]. intros [Hn _]. destruct Hn. by apply Hl.
  - split; [done|]. intros [_ Hn]. destruct Hn. by apply Hp.
  - split; [|done]. intros _. split; intros Hb.
    + by apply Hl in Hb.
    + assert (Hn : ~ (9 * w <= 16 * h <= 9 * w + 8))
        by (intros Hb'; by apply Hl in Hb').
      assert ("other" = "9:16") by (by apply Hp). done.
Qed.

Lemma aspect_ratio_bands_witness : ratio_of 1366 768 = "other".
Proof.
  apply (proj2 (proj2 (aspect_ratio_bands 1366 768 ltac:(lia) ltac:(lia)))). lia.
Defined.

(** X2.  For dimensions below [2^59], turning a frame by a quarter swaps
    the results: a frame that is [9:16] is [16:9] when turned, a frame that
    is [16:9] and not square is [9:16] when turned, and a frame that is
    [other] stays [other]. *)
Theorem aspect_ratio_swap w h :
  0 <= w < 2 ^ 59 -> 0 <= h < 2 ^ 59 ->
  (ratio_of w h = "9:16" -> ratio_of h w = "16:9")
  /\ (ratio_of w h = "16:9" -> w <> h -> ratio_of h w = "9:16")
  /\ (ratio_of w h = "other" -> ratio_of h w = "other").
Proof.
  intros Hw Hh.
  pose proof (landscape_iff w h Hw Hh) as Hl.
  pose proof (portrait_iff w h Hw Hh) as Hp.
  pose proof (landscape_iff h w Hh Hw) as Hl'.
  pose proof (portrait_iff h w Hh Hw) as Hp'.
  split; [|split].
  - intros H. apply (ratio_of_orientation w h portrait) in H.
    apply (ratio_of_orientation h w landscape). apply Hl'. apply Hp in H. lia.
  - intros H Hne. apply (ratio_of_orientation w h landscape) in H.
    apply (ratio_of_orientation h w portrait). apply Hp'. apply Hl in H.
    split; [|lia]. intros Hband. apply Hne. lia.
  - intros H. apply (ratio_of_orientation w h other) in H.
    apply (ratio_of_orientation h w other).
    assert (Hn : ~ (9 * w <= 16 * h <= 9 * w + 8)).
    { intros Hb. apply Hl in Hb. congruence. }
    assert (Hn' : ~ (9 * h <= 16 * w <= 9 * h + 8)).
    { intros Hb. assert (classify w h = portrait) by (by apply Hp). congruence. }
    destruct (classify h w); [| |done].
    + pose proof (proj1 Hl' eq_refl). lia.
    + pose proof (proj1 Hp' eq_refl). lia.
Qed.

Lemma aspect_ratio_swap_witness : ratio_of 1080 1920 = "9:16".
Proof.
  apply (proj1 (proj2 (aspect_ratio_swap 1920 1080 ltac:(lia) ltac:(lia))));
    [reflexivity | lia].
Defined.

(** X3.  Every frame of [16*k] by [9*k] pixels, for [k] below [2^55], is
    [16:9], and every frame of [9*k] by [16*k] pixels is [9:16]. *)
Theorem exact_ratio_recognised k :
  0 < k < 2 ^ 55 ->
  ratio_of (16 * k) (9 * k) = "16:9" /\ ratio_of (9 * k) (16 * k) = "9:16".
Proof.
  intros Hk.
  pose proof (landscape_iff (16 * k) (9 * k) ltac:(lia) ltac:(lia)) as Hl.
  pose proof (portrait_iff (9 * k) (16 * k) ltac:(lia) ltac:(lia)) as Hp.
  split.
  - apply (ratio_of_orientation _ _ landscape). apply Hl. lia.
  - apply (ratio_of_orientation _ _ portrait). apply Hp. lia.
Qed.

Lemma exact_ratio_recognised_witness :
  ratio_of (16 * 240) (9 * 240) = "16:9" /\ ratio_of (9 * 240) (16 * 240) = "9:16".
Proof. apply (exact_ratio_recognised 240). lia. Defined.

(** ** [strings.Split] and the extension *)

Lemma Contains_app s t sep :
  Strings.Contains (s +:+ t) sep = Strings.Contains s sep || Strings.Contains t sep.
Proof.
  induction s as [|c s IH]; [done|].
  change (String c s +:+ t) with (String c (s +:+ t)). cbn [Strings.Contains].
  rewrite IH. by rewrite orb_assoc.
Qed.

Lemma Split_at_sep t s sep :
  Strings.Contains t sep = false ->
  Strings.Split (t +:+ String sep s) sep = t :: Strings.Split s sep.
Proof.
  induction t as [|c t IH].
  - intros _. change ("" +:+ String sep s) with (String sep s).
    cbn [Strings.Split]. by rewrite Ascii.eqb_refl.
  - change (String c t +:+ String sep s) with (String c (t +:+ String sep s)).
    cbn [Strings.Split Strings.Contains].
    intros H. apply orb_false_iff in H as [Hc Ht].
    rewrite Hc, (IH Ht). done.
Qed.

(** No piece holds the separator, and joining the pieces with the
    separator gives back the string. *)
Lemma Split_pieces s sep :
  Forall (fun piece => Strings.Contains piece sep = false) (Strings.Split s sep).
Proof.
  induction s as [|c s IH]; cbn [Strings.Split]; [by repeat constructor|].
  destruct (Ascii.eqb c sep) eqn:Hc; [by constructor|].
  destruct (Strings.Split s sep) as [|p ps]; [by repeat constructor; cbn; rewrite Hc|].
  inversion IH as [|? ? Hp Hps]; subst. constructor; [|done].
  cbn. by rewrite Hc, Hp.
Qed.

Lemma Split_concat s sep :
  String.concat (String sep EmptyString) (Strings.Split s sep) = s.
Proof.
  induction s as [|c s IH]; [done|]. cbn [Strings.Split].
  destruct (Ascii.eqb_spec c sep) as [->|Hne].
  - pose proof (Split_nonempty s sep).
    destruct (Strings.Split s sep) as [|p ps] eqn:Hs; [done|].
    cbn [String.concat] in *. rewrite IH. reflexivity.
  - pose proof (Split_nonempty s sep).
    destruct (Strings.Split s sep) as [|p ps] eqn:Hs; [done|].
    destruct ps; cbn [String.concat] in *; rewrite <- IH; reflexivity.
Qed.

(** X4.  The extension both handlers derive, the element at index 1 of
    the media type split at the slash: for a media type with one slash it is
    the whole text after the slash, whatever that text is. *)
Theorem extension_is_text_after_slash t s :
  Strings.Contains t "/" = false ->
  Strings.Contains s "/" = false ->
  Strings.Split (t +:+ "/" +:+ s) "/" !! 1%nat = Some s.
Proof.
  intros Ht Hs. change ("/" +:+ s) with (String "/"%char s).
  by rewrite Split_at_sep, (Split_no_sep _ _ Hs).
Qed.

Lemma extension_is_text_after_slash_witness :
  Strings.Split ("image" +:+ "/" +:+ "png; charset=binary") "/" !! 1%nat
  = Some "png; charset=binary".
Proof.
  apply (extension_is_text_after_slash "image" "png; charset=binary"); reflexivity.
Defined.

(** ** The storage key *)

Lemma append_assoc (s t u : string) : (s +:+ t) +:+ u = s +:+ (t +:+ u).
Proof.
  induction s as [|c s IH]; [done|].
  change (String c ((s +:+ t) +:+ u) = String c (s +:+ (t +:+ u))). by rewrite IH.
Qed.

Lemma append_length (s t : string) :
  String.length (s +:+ t) = (String.length s + String.length t)%nat.
Proof.
  induction s as [|c s IH]; [done|].
  change (S (String.length (s +:+ t)) = S (String.length s + String.length t)).
  by rewrite IH.
Qed.

Lemma append_cancel_r s s' t : s +:+ t = s' +:+ t -> s = s'.
Proof.
  intros H.
  assert (Hlen : String.length s = String.length s').
  { apply (f_equal String.length) in H. rewrite !append_length in H. lia. }
  revert s' H Hlen. induction s as [|c s IH]; intros [|c' s'] H Hlen; try done.
  change (String c (s +:+ t) = String c' (s' +:+ t)) in H.
  injection H as -> H. f_equal. apply IH; [done|]. cbn in Hlen. lia.
Qed.

Lemma u8_bound b : 0 <= Base64.u8 b < 256.
Proof. unfold Base64.u8. pose proof (Byte.to_N_bounded b). lia. Qed.

Lemma u8_inj a b : Base64.u8 a = Base64.u8 b -> a = b.
Proof.
  unfold Base64.u8. intros H. apply N2Z.inj in H.
  pose proof (Byte.of_to_N a) as Ha. pose proof (Byte.of_to_N b) as Hb.
  rewrite H in Ha. congruence.
Qed.

(** Each of the 64 values has its own digit, at its own place in the
    alphabet. *)
Lemma digit_position v :
  0 <= v < 64 -> position (Base64.digit v) Base64.encodeURL = Some (Z.to_nat v).
Proof.
  intros Hv.
  assert (Hcases : exists n, (n < 64)%nat /\ v = Z.of_nat n)
    by (exists (Z.to_nat v); lia).
  destruct Hcases as (n & Hn & ->).
  do 64 (destruct n as [|n]; [vm_compute; reflexivity|]). lia.
Qed.

Lemma sextet_bound v : 0 <= Z.land v 63 < 64.
Proof.
  change 63 with (Z.ones 6). rewrite Z.land_ones by lia.
  apply Z.mod_pos_bound. lia.
Qed.

Lemma digit_inj v v' :
  Base64.digit v = Base64.digit v' -> Z.land v 63 = Z.land v' 63.
Proof.
  intros H.
  assert (Hd : forall x, Base64.digit x = Base64.digit (Z.land x 63)).
  { intros x. unfold Base64.digit. by rewrite <- Z.land_assoc. }
  rewrite (Hd v), (Hd v') in H.
  pose proof (digit_position _ (sextet_bound v)) as Hp.
  pose proof (digit_position _ (sextet_bound v')) as Hp'.
  rewrite H in Hp. rewrite Hp in Hp'. injection Hp' as Hp'.
  pose proof (sextet_bound v). pose proof (sextet_bound v'). lia.
Qed.

Lemma sextet_div v k :
  0 <= k -> Z.land (Z.shiftr v k) 63 = (v / 2 ^ k) mod 64.
Proof.
  intros Hk. rewrite Z.shiftr_div_pow2 by done.
  change 63 with (Z.ones 6). by rewrite Z.land_ones by lia.
Qed.

Lemma lor_shiftl_add x y n :
  0 <= n -> 0 <= y < 2 ^ n -> Z.lor (Z.shiftl x n) y = x * 2 ^ n + y.
Proof.
  intros Hn Hy. rewrite <- Z.shiftl_mul_pow2 by done.
  rewrite <- (Z.add_lor_land (Z.shiftl x n) y).
  replace (Z.land (Z.shiftl x n) y) with 0; [lia|].
  symmetry. apply Z.bits_inj'. intros i Hi.
  rewrite Z.land_spec, Z.bits_0.
  destruct (Z.lt_ge_cases i n) as [Hlt|Hge].
  - by rewrite Z.shiftl_spec_low.
  - destruct (Z.eq_dec y 0) as [->|Hy0]; [by rewrite Z.bits_0, andb_false_r|].
    rewrite (Z.bits_above_log2 y i), andb_false_r; [done|lia|].
    apply Z.lt_le_trans with n; [|done]. apply Z.log2_lt_pow2; lia.
Qed.

Lemma lor_low x y n :
  0 <= n -> 0 <= y < 2 ^ n -> x mod 2 ^ n = 0 -> Z.lor x y = x + y.
Proof.
  intros Hn Hy Hx.
  assert (Hpos : 0 < 2 ^ n) by (apply Z.pow_pos_nonneg; lia).
  pose proof (Z.div_mod x (2 ^ n) ltac:(lia)) as Hdiv.
  replace x with (Z.shiftl (x / 2 ^ n) n) at 1
    by (rewrite Z.shiftl_mul_pow2 by done; lia).
  rewrite lor_shiftl_add by done. lia.
Qed.

(** The 24-bit group of three source bytes. *)
Lemma group_value a b c :
  Z.lor (Z.lor (Z.shiftl (Base64.u8 a) 16) (Z.shiftl (Base64.u8 b) 8)) (Base64.u8 c)
  = 65536 * Base64.u8 a + 256 * Base64.u8 b + Base64.u8 c.
Proof.
  pose proof (u8_bound a). pose proof (u8_bound b). pose proof (u8_bound c).
  rewrite !Z.shiftl_mul_pow2 by lia.
  rewrite (lor_low (Base64.u8 a * 2 ^ 16) (Base64.u8 b * 2 ^ 8) 16); [|lia|lia|].
  - rewrite (lor_low _ (Base64.u8 c) 8); [lia|lia|lia|].
    replace (Base64.u8 a * 2 ^ 16 + Base64.u8 b * 2 ^ 8)
      with ((Base64.u8 a * 2 ^ 8 + Base64.u8 b) * 2 ^ 8) by lia.
    apply Z.mod_mul. lia.
  - replace (2 ^ 16) with (1 * 2 ^ 16) at 2 by lia. apply Z.mod_mul. lia.
Qed.

(** The group of a remainder of two source bytes. *)
Lemma group_value2 a b :
  Z.lor (Z.shiftl (Base64.u8 a) 16) (Z.shiftl (Base64.u8 b) 8)
  = 65536 * Base64.u8 a + 256 * Base64.u8 b.
Proof.
  pose proof (u8_bound a). pose proof (u8_bound b).
  rewrite !Z.shiftl_mul_pow2 by lia.
  rewrite (lor_low (Base64.u8 a * 2 ^ 16) (Base64.u8 b * 2 ^ 8) 16); [lia|lia|lia|].
  replace (2 ^ 16) with (1 * 2 ^ 16) at 2 by lia. apply Z.mod_mul. lia.
Qed.

(** The digits determine the source bytes. *)
Lemma EncodeToString_inj src src' :
  Base64.EncodeToString src = Base64.EncodeToString src' -> src = src'.
Proof.
  revert src'.
  induction src as [src IH] using (induction_ltof1 _ (@length byte)).
  unfold ltof in IH. intros src'.
  destruct src as [|a [|b [|c rest]]], src' as [|a' [|b' [|c' rest']]];
    cbn [Base64.EncodeToString]; cbv zeta; try discriminate; try done.
  - intros [= H1 H2]. apply digit_inj in H1, H2.
    rewrite !sextet_div in H1, H2 by lia. rewrite !Z.shiftl_mul_pow2 in * by lia.
    pose proof (u8_bound a). pose proof (u8_bound a').
    f_equal. apply u8_inj.
    change (2 ^ 16) with 65536 in *. change (2 ^ 18) with 262144 in *.
    change (2 ^ 12) with 4096 in *.
    Z.to_euclidean_division_equations. lia.
  - intros [= H1 H2 H3]. apply digit_inj in H1, H2, H3.
    rewrite !group_value2 in *.
    rewrite !sextet_div in H1, H2, H3 by lia.
    pose proof (u8_bound a). pose proof (u8_bound a').
    pose proof (u8_bound b). pose proof (u8_bound b').
    assert (Base64.u8 a = Base64.u8 a' /\ Base64.u8 b = Base64.u8 b') as [Ha Hb].
    { change (2 ^ 18) with 262144 in *. change (2 ^ 12) with 4096 in *.
      change (2 ^ 6) with 64 in *.
      Z.to_euclidean_division_equations. lia. }
    apply u8_inj in Ha, Hb. by subst.
  - intros [= H1 H2 H3 H4 Hrest]. apply digit_inj in H1, H2, H3, H4.
    rewrite !group_value in *.
    rewrite !sextet_div in H1, H2, H3 by lia.
    rewrite <- (Z.shiftr_0_r (65536 * Base64.u8 a + _ + _)) in H4.
    rewrite <- (Z.shiftr_0_r (65536 * Base64.u8 a' + _ + _)) in H4.
    rewrite !sextet_div in H4 by lia.
    pose proof (u8_bound a). pose proof (u8_bound a').
    pose proof (u8_bound b). pose proof (u8_bound b').
    pose proof (u8_bound c). pose proof (u8_bound c').
    assert (Base64.u8 a = Base64.u8 a' /\ Base64.u8 b = Base64.u8 b'
            /\ Base64.u8 c = Base64.u8 c') as (Ha & Hb & Hc).
    { change (2 ^ 18) with 262144 in *. change (2 ^ 12) with 4096 in *.
      change (2 ^ 6) with 64 in *. change (2 ^ 0) with 1 in *.
      Z.to_euclidean_division_equations. lia. }
    apply u8_inj in Ha, Hb, Hc. subst.
    f_equal. f_equal. f_equal. apply IH; [simpl; lia | done].
Qed.

(** A character outside the alphabet does not occur in a URL-safe string. *)
Lemma url_safe_excludes s c :
  position c Base64.encodeURL = None -> Base64.url_safe s -> Strings.Contains s c = false.
Proof.
  intros Hc. induction s as [|ch s IH]; [done|].
  intros [(v & Hv & ->) Hs]. cbn [Strings.Contains].
  rewrite (IH Hs), orb_false_r.
  destruct (Ascii.eqb_spec (Base64.digit v) c) as [Heq|]; [|done].
  pose proof (digit_position v Hv) as Hp. rewrite Heq, Hc in Hp. discriminate.
Qed.

Lemma directory_of_no_slash aspectRatio :
  Strings.Contains (directory_of aspectRatio) "/" = false.
Proof.
  unfold directory_of.
  destruct (String.eqb aspectRatio "16:9"); [done|].
  by destruct (String.eqb aspectRatio "9:16").
Qed.

Lemma key_split aspectRatio random extension :
  Strings.Contains extension "/" = false ->
  Strings.Split (encodedVideoName_of (directory_of aspectRatio) random extension) "/"
  = [directory_of aspectRatio; Base64.EncodeToString random +:+ "." +:+ extension].
Proof.
  intros Hext. unfold encodedVideoName_of.
  rewrite append_assoc.
  change ("/" +:+ ?s) with (String "/"%char s).
  rewrite Split_at_sep by apply directory_of_no_slash.
  rewrite Split_no_sep; [done|].
  rewrite !Contains_app, Hext.
  rewrite (url_safe_excludes _ "/"); [done|done|apply EncodeToString_url_safe].
Qed.

(** X5.  Whatever string the classifier returned, the storage key has
    exactly two path segments: the first is [landscape], [portrait] or
    [other], the second is the token followed by a dot and the extension;
    the token holds no slash and no dot. *)
Theorem key_has_two_segments aspectRatio random extension :
  Strings.Contains extension "/" = false ->
  Strings.Split (encodedVideoName_of (directory_of aspectRatio) random extension) "/"
  = [directory_of aspectRatio; Base64.EncodeToString random +:+ "." +:+ extension]
  /\ In (directory_of aspectRatio) ["landscape"; "portrait"; "other"]
  /\ Strings.Contains (Base64.EncodeToString random) "/" = false
  /\ Strings.Contains (Base64.EncodeToString random) "." = false.
Proof.
  intros Hext. split; [by apply key_split|]. split.
  - unfold directory_of.
    destruct (String.eqb aspectRatio "16:9"); [by left|].
    destruct (String.eqb aspectRatio "9:16"); [right; by left | right; right; by left].
  - split; apply url_safe_excludes; first [done | apply EncodeToString_url_safe].
Qed.

Lemma key_has_two_segments_witness :
  Strings.Split (encodedVideoName_of (directory_of "4:3") [x00; xff; x3e] "mp4") "/"
  = ["other"; "AP8-.mp4"].
Proof.
  apply (proj1 (key_has_two_segments "4:3" [x00; xff; x3e] "mp4" ltac:(reflexivity))).
Defined.

(** X6.  The storage key determines the category and the random bytes:
    two uploads with the same extension get the same key only if they were
    filed under the same category and drew the same random bytes. *)
Theorem storage_key_injective aspectRatio aspectRatio' random random' extension :
  Strings.Contains extension "/" = false ->
  encodedVideoName_of (directory_of aspectRatio) random extension
  = encodedVideoName_of (directory_of aspectRatio') random' extension ->
  directory_of aspectRatio = directory_of aspectRatio' /\ random = random'.
Proof.
  intros Hext Hkey.
  apply (f_equal (fun key => Strings.Split key "/")) in Hkey.
  rewrite (key_split aspectRatio random extension Hext) in Hkey.
  rewrite (key_split aspectRatio' random' extension Hext) in Hkey.
  injection Hkey as Hdir Hname. split; [done|].
  apply EncodeToString_inj. by apply append_cancel_r in Hname.
Qed.

Lemma storage_key_injective_witness :
  directory_of "other" = directory_of "4:3" /\ [x00; xff; x3e] = [x00; xff; x3e].
Proof.
  apply (storage_key_injective "other" "4:3" [x00; xff; x3e] [x00; xff; x3e] "mp4");
    reflexivity.
Defined.

(** ** Every path of [handlerUploadVideo] *)

Section UploadPaths.

Context (E : Env) (cfg : apiConfig) (r : Request).
Context (d : gmap N Video) (f : gmap string (list byte)) (o : list Object).

Local Abbreviation result := (upload_video E cfg r d f o).

(** X7.  A request whose video id does not parse, that carries no bearer
    token, or whose token does not validate is answered (400 [Invalid ID],
    401 [Couldn't find JWT], 401 [Couldn't validate JWT], checked in this
    order) before any call to the metadata store, the form, the filesystem,
    the prober or the object store, and all stores are unchanged. *)
Theorem no_call_before_authentication :
  uuid_Parse E (PathValue r "videoID") = None
  \/ GetBearerToken E (Header r) = None
  \/ (exists jwt, GetBearerToken E (Header r) = Some jwt
                  /\ ValidateJWT E jwt (jwtSecret cfg) = None) ->
  fst (upload_video E cfg r d f o) = Finished
  /\ trace (snd result) = []
  /\ db (snd result) = d /\ fs (snd result) = f /\ s3 (snd result) = o
  /\ response (snd result)
     = Some (match uuid_Parse E (PathValue r "videoID"), GetBearerToken E (Header r) with
             | None, _ => {| status := 400; body := ErrorBody "Invalid ID" |}
             | Some _, None => {| status := 401; body := ErrorBody "Couldn't find JWT" |}
             | Some _, Some _ =>
                 {| status := 401; body := ErrorBody "Couldn't validate JWT" |}
             end).
Proof.
  intros Hcause.
  destruct (uuid_Parse E (PathValue r "videoID")) as [videoId|] eqn:Hid.
  - destruct Hcause as [Hnone | [Htok | (jwt & Htok & Hjwt)]]; [done| |].
    + run. by repeat split.
    + run. by repeat split.
  - run. by repeat split.
Qed.

(** X8.  When the metadata lookup returns an error, an authenticated
    request is answered 500 [Couldn't find video metadata] (not 404), after
    the one call to [GetVideo]: the form is not read, and whether the caller
    owns the video is not looked at. *)
Theorem lookup_failure_is_internal_error videoId jwt userId :
  uuid_Parse E (PathValue r "videoID") = Some videoId ->
  GetBearerToken E (Header r) = Some jwt ->
  ValidateJWT E jwt (jwtSecret cfg) = Some userId ->
  GetVideo_fails E = true ->
  upload_video E cfg r d f o
  = (Finished,
     {| db := d; fs := f; handles := []; s3 := o;
        trace := [EvGetVideo videoId];
        response := Some {| status := 500;
                            body := ErrorBody "Couldn't find video metadata" |};
        deferred := [];
        body_limit := Some (2 ^ 30) |}).
Proof.
  intros Hid Htok Hjwt Hget. run. reflexivity.
Qed.

(** X9.  For the owner of the video: a form without a file under [video]
    is answered 400 [Unable to parse video file]; a file whose declared
    content type does not parse as a media type is answered 400 with the
    message [Invalid ID], after the multipart file is closed.  Neither
    touches the filesystem or the stores. *)
Theorem form_errors_are_bad_requests videoId jwt video :
  uuid_Parse E (PathValue r "videoID") = Some videoId ->
  GetBearerToken E (Header r) = Some jwt ->
  ValidateJWT E jwt (jwtSecret cfg) = Some (UserID video) ->
  GetVideo_fails E = false ->
  d !! videoId = Some video ->
  (form_file r "video" = None ->
   upload_video E cfg r d f o
   = (Finished,
      {| db := d; fs := f; handles := []; s3 := o;
         trace := [EvGetVideo videoId; EvFormFile "video"];
         response := Some {| status := 400;
                             body := ErrorBody "Unable to parse video file" |};
         deferred := [];
         body_limit := Some (2 ^ 30) |}))
  /\ (forall part,
        form_extent r <= 2 ^ 30 ->
        form_file r "video" = Some part ->
        ParseMediaType E (part_ContentType part) = None ->
        upload_video E cfg r d f o
        = (Finished,
           {| db := d; fs := f; handles := []; s3 := o;
              trace := [EvGetVideo videoId; EvFormFile "video";
                        EvClose (MultipartFile "video")];
              response := Some {| status := 400; body := ErrorBody "Invalid ID" |};
              deferred := [];
              body_limit := Some (2 ^ 30) |})).
Proof.
  intros Hid Htok Hjwt Hget Hd. split.
  - intros Hform.
    destruct (Z.shiftl 1 30 <? form_extent r) eqn:Hext; run; reflexivity.
  - intros part Hext Hform Hmime. apply limit_not_exceeded in Hext.
    run. reflexivity.
Qed.

(** X10.  For the owner's mp4 upload, a failure while staging is a 500 and
    leaves nothing behind: when no temporary file can be created the answer
    is [Couldn't create temp file] and only the multipart file is closed;
    when the copy fails after some bytes the answer is [Couldn't write video
    data], and when [rand.Read] fails it is [Couldn't generate random name];
    in both the temporary file is closed and removed, so the filesystem is
    as before, and neither the prober nor the object store is called. *)
Theorem staging_failures_are_internal_errors videoId jwt video part :
  uuid_Parse E (PathValue r "videoID") = Some videoId ->
  GetBearerToken E (Header r) = Some jwt ->
  ValidateJWT E jwt (jwtSecret cfg) = Some (UserID video) ->
  GetVideo_fails E = false ->
  d !! videoId = Some video ->
  form_extent r <= 2 ^ 30 ->
  form_file r "video" = Some part ->
  ParseMediaType E (part_ContentType part) = Some "video/mp4" ->
  (CreateTemp_name E = None ->
   upload_video E cfg r d f o
   = (Finished,
      {| db := d; fs := f; handles := []; s3 := o;
         trace := [EvGetVideo videoId; EvFormFile "video";
                   EvClose (MultipartFile "video")];
         response := Some {| status := 500;
                             body := ErrorBody "Couldn't create temp file" |};
         deferred := [];
         body_limit := Some (2 ^ 30) |}))
  /\ (forall tempFile n,
        CreateTemp_name E = Some tempFile ->
        f !! tempFile = None ->
        Copy_failure E = Some n ->
        upload_video E cfg r d f o
        = (Finished,
           {| db := d; fs := f; handles := []; s3 := o;
              trace := [EvGetVideo videoId; EvFormFile "video"; EvCreateTemp tempFile;
                        EvCopy tempFile (Nat.min n (length (part_data part)));
                        EvClose (OSFile tempFile); EvRemove tempFile;
                        EvClose (MultipartFile "video")];
              response := Some {| status := 500;
                                  body := ErrorBody "Couldn't write video data" |};
              deferred := [];
              body_limit := Some (2 ^ 30) |}))
  /\ (forall tempFile,
        CreateTemp_name E = Some tempFile ->
        f !! tempFile = None ->
        Copy_failure E = None ->
        crypto_rand E = None ->
        upload_video E cfg r d f o
        = (Finished,
           {| db := d; fs := f; handles := []; s3 := o;
              trace := [EvGetVideo videoId; EvFormFile "video"; EvCreateTemp tempFile;
                        EvCopy tempFile (length (part_data part)); EvSeek tempFile;
                        EvRandRead 32;
                        EvClose (OSFile tempFile); EvRemove tempFile;
                        EvClose (MultipartFile "video")];
              response := Some {| status := 500;
                                  body := ErrorBody "Couldn't generate random name" |};
              deferred := [];
              body_limit := Some (2 ^ 30) |})).
Proof.
  intros Hid Htok Hjwt Hget Hd Hext Hform Hmime.
  apply limit_not_exceeded in Hext.
  split; [|split].
  - intros Htmp.
    run. cbn [Strings.Split Ascii.eqb Bool.eqb lookup list_lookup String.eqb]. run.
    reflexivity.
  - intros tempFile n Htmp Hfresh Hcopy.
    run. cbn [Strings.Split Ascii.eqb Bool.eqb lookup list_lookup String.eqb]. run.
    rewrite temp_removed by done. reflexivity.
  - intros tempFile Htmp Hfresh Hcopy Hrand.
    run. cbn [Strings.Split Ascii.eqb Bool.eqb lookup list_lookup String.eqb]. run.
    rewrite temp_removed by done. reflexivity.
Qed.

(** X11.  Whatever the request and the environment, the handler either
    returns after writing exactly one response, whose status is 200, 400,
    401 or 500, or it panics with an index out of range before any response
    is written; the panic happens exactly on a part whose parsed media type
    has no slash. *)
Theorem responds_or_panics :
  (fst (upload_video E cfg r d f o) = Finished
   /\ exists code, status_of (snd result) = Some code /\ In code [200; 400; 401; 500])
  \/ (fst result = Panicked "index out of range"
      /\ response (snd result) = None
      /\ exists part mediaType,
           form_file r "video" = Some part
           /\ ParseMediaType E (part_ContentType part) = Some mediaType
           /\ Strings.Contains mediaType "/" = false).
Proof.
  explore.
  all: unfold status_of; reduce; cbn [option_map status].
  all: try (left; split; [reflexivity|]; eexists; split; [reflexivity|];
            cbn; tauto).
  all: right; split; [reflexivity|]; split; [reflexivity|].
  all: do 2 eexists; split; [reflexivity|]; split; [eassumption|].
  all: match goal with
       | H : Strings.Split ?s _ !! _ = None |- _ =>
           destruct (Strings.Contains s "/") eqn:Hslash; [|reflexivity];
           apply Split_has_second in Hslash; rewrite H in Hslash;
           by destruct Hslash
       end.
Qed.


(** X13.  A request that is not answered 200 leaves the metadata store
    unchanged; it leaves the object store unchanged too, unless the answer
    is 500 [Couldn't update video]. *)
Theorem record_changes_only_on_success :
  status_of (snd (upload_video E cfg r d f o)) <> Some 200 ->
  db (snd result) = d
  /\ (s3 (snd result) = o
      \/ response (snd result)
         = Some {| status := 500; body := ErrorBody "Couldn't update video" |}).
Proof.
  explore.
  all: unfold status_of; reduce; cbn [option_map status]; intros Hstatus.
  all: try (split; [reflexivity | by left]).
  all: try (split; [reflexivity | by right]).
  all: by destruct Hstatus.
Qed.

(** X14.  The converse of the success path: a 200 is written only when
    every step succeeded (the id and the token are valid, the caller owns
    the record, the form ends within the ceiling and holds a [video] file
    whose media type is [video/mp4], staging, the random name, the probe
    output, the upload and the metadata update all succeed), and the run is
    then the full upload. *)
Theorem ok_only_when_every_step_succeeded :
  status_of (snd (upload_video E cfg r d f o)) = Some 200 ->
  exists videoId jwt video part tempFile src data,
    uuid_Parse E (PathValue r "videoID") = Some videoId
    /\ GetBearerToken E (Header r) = Some jwt
    /\ ValidateJWT E jwt (jwtSecret cfg) = Some (UserID video)
    /\ GetVideo_fails E = false
    /\ d !! videoId = Some video
    /\ form_extent r <= 2 ^ 30
    /\ form_file r "video" = Some part
    /\ ParseMediaType E (part_ContentType part) = Some "video/mp4"
    /\ CreateTemp_name E = Some tempFile
    /\ f !! tempFile = None
    /\ Copy_failure E = None
    /\ crypto_rand E = Some src
    /\ json_Unmarshal E (Stdout (ffprobe E (ffprobe_args tempFile))) = Some data
    /\ PutObject_fails E = false
    /\ UpdateVideo_fails E = false
    /\ result = (Finished, uploaded cfg d f o videoId video part tempFile src data).
Proof.
  explore.
  all: unfold status_of; reduce; cbn [option_map status]; intros Hok; try discriminate.
  repeat match goal with
         | H : negb _ = false |- _ => apply negb_false_iff in H
         | H : N.eqb _ _ = true |- _ => apply N.eqb_eq in H
         | H : String.eqb _ _ = true |- _ => apply String.eqb_eq in H
         | H : Z.ltb _ _ = false |- _ => apply Z.ltb_ge in H
         end.
  subst.
  match goal with
  | H : Strings.Split _ _ !! _ = Some _ |- _ => injection H as <-
  end.
  destruct (crypto_rand E) as [src|] eqn:Hrand; [|discriminate].
  match goal with
  | H : option_map _ (Some src) = Some _ |- _ => injection H as <-
  end.
  match goal with
  | Hscan : scan_streams (Streams ?data) = _,
    Hget : d !! ?videoId = Some ?video,
    Htok : GetBearerToken _ _ = Some ?jwt,
    Hform : form_file _ _ = Some ?part,
    Htmp : CreateTemp_name _ = Some ?tempFile |- _ =>
      exists videoId, jwt, video, part, tempFile, src, data;
      repeat (split; [first [reflexivity | assumption]|]);
      unfold uploaded, uploaded_video, uploaded_key;
      rewrite Hscan; cbn [fst snd];
      rewrite lookup_insert_eq, temp_removed by assumption; reflexivity
  end.
Qed.

(** X15.  When the metadata store refuses the update, the request is
    answered 500 [Couldn't update video] and the record keeps its old
    reference, but the object uploaded a step earlier is not deleted: it
    stays in the bucket, referenced by no record. *)
Theorem metadata_write_failure_orphans_object :
  UpdateVideo_fails E = true ->
  issued UpdateVideoCall (snd (upload_video E cfg r d f o)) = true ->
  fst result = Finished
  /\ response (snd result)
     = Some {| status := 500; body := ErrorBody "Couldn't update video" |}
  /\ db (snd result) = d
  /\ fs (snd result) = f
  /\ exists key content,
       s3 (snd result)
       = o ++ [{| Bucket := s3Bucket cfg; Key := key; ContentType := "video/mp4";
                  Content := content |}].
Proof.
  intros Hupd.
  explore.
  all: observe; intros Hcalled; try discriminate.
  all: rewrite ?temp_removed by assumption.
  all: do 4 (split; [reflexivity|]).
  all: repeat match goal with
              | H : negb _ = false |- _ => apply negb_false_iff in H
              | H : String.eqb _ _ = true |- _ => apply String.eqb_eq in H
              end; subst.
  all: by do 2 eexists.
Qed.

(** X16.  The calls recorded on every run (a creation of the temporary
    file is recorded when it succeeds) are a prefix of the pipeline
    [GetVideo], [FormFile], [CreateTemp], [Copy], [Seek], [rand.Read], the
    prober, [PutObject], [UpdateVideo], followed by the deferred calls:
    none, the close of the multipart file, or the close and the removal of
    the temporary file and then the close of the multipart file.  No step
    is repeated or taken out of order. *)
Theorem calls_follow_pipeline :
  exists steps cleanup,
    map call_of (trace (snd (upload_video E cfg r d f o)))
    = take steps video_pipeline ++ cleanup
    /\ In cleanup [[]; [CloseCall]; [CloseCall; RemoveCall; CloseCall]].
Proof.
  explore.
  all: reduce; cbn [map call_of].
  all: first
         [ exists 0%nat, []; split; [reflexivity | cbn; tauto]
         | exists 1%nat, []; split; [reflexivity | cbn; tauto]
         | exists 2%nat, []; split; [reflexivity | cbn; tauto]
         | exists 2%nat, [CloseCall]; split; [reflexivity | cbn; tauto]
         | exists 3%nat, [CloseCall; RemoveCall; CloseCall];
           split; [reflexivity | cbn; tauto]
         | exists 4%nat, [CloseCall; RemoveCall; CloseCall];
           split; [reflexivity | cbn; tauto]
         | exists 6%nat, [CloseCall; RemoveCall; CloseCall];
           split; [reflexivity | cbn; tauto]
         | exists 7%nat, [CloseCall; RemoveCall; CloseCall];
           split; [reflexivity | cbn; tauto]
         | exists 8%nat, [CloseCall; RemoveCall; CloseCall];
           split; [reflexivity | cbn; tauto]
         | exists 9%nat, [CloseCall; RemoveCall; CloseCall];
           split; [reflexivity | cbn; tauto] ].
Qed.

End UploadPaths.

(** ** Every path of [handlerUploadThumbnail] *)

(** Follow every path of a request to [handlerUploadThumbnail]. *)
Ltac explore_thumbnail :=
  unfold upload_thumbnail; name_result;
  unfold handlerUploadThumbnail, Create; unfold_calls;
  repeat (reduce; first [progress use_facts | branch]);
  reduce; intros <-; unfold id in *.

Section ThumbnailPaths.

Context (E : Env) (cfg : apiConfig) (r : Request).
Context (d : gmap N Video) (f : gmap string (list byte)) (o : list Object).

Local Abbreviation result := (upload_thumbnail E cfg r d f o).


(** X18.  A caller who does not own the video is answered 401 [Not
    allowed], but only after the form has been parsed and the [thumbnail]
    part opened (ownership is checked after the form here, and before it in
    [handlerUploadVideo]); nothing is written. *)
Theorem thumbnail_not_owner videoID jwt userID video part :
  uuid_Parse E (PathValue r "videoID") = Some videoID ->
  GetBearerToken E (Header r) = Some jwt ->
  ValidateJWT E jwt (jwtSecret cfg) = Some userID ->
  form_file r "thumbnail" = Some part ->
  GetVideo_fails E = false ->
  d !! videoID = Some video ->
  userID <> UserID video ->
  upload_thumbnail E cfg r d f o
  = (Finished,
     {| db := d; fs := f; handles := []; s3 := o;
        trace := [EvPrintln; EvFormFile "thumbnail"; EvGetVideo videoID;
                  EvClose (MultipartFile "thumbnail")];
        response := Some {| status := 401; body := ErrorBody "Not allowed" |};
        deferred := [];
        body_limit := None |}).
Proof.
  intros Hid Htok Hjwt Hform Hget Hd Hown. apply N.eqb_neq in Hown.
  unfold upload_thumbnail, handlerUploadThumbnail, Create.
  run. reflexivity.
Qed.

(** X19.  Once the thumbnail file has been created, on every path that
    follows (copy failure, update failure, success) the handler returns with
    the file still open and still on disk: it is never closed and never
    removed. *)
Theorem thumbnail_file_stays_open :
  issued CreateCall (snd (upload_thumbnail E cfg r d f o)) = true ->
  exists videoID fileExtension,
    uuid_Parse E (PathValue r "videoID") = Some videoID
    /\ fst result = Finished
    /\ handles (snd result) = [OSFile (thumbnail_path E cfg videoID fileExtension)]
    /\ is_Some (fs (snd result) !! thumbnail_path E cfg videoID fileExtension)
    /\ never RemoveCall (snd result)
    /\ deferred (snd result) = [].
Proof.
  explore_thumbnail.
  all: observe; intros Hcreated; try discriminate.
  all: unfold thumbnail_path.
  all: do 2 eexists; split; [reflexivity|]; split; [reflexivity|].
  all: split; [reflexivity|]; split; [|by split].
  all: rewrite lookup_insert_eq; eauto.
Qed.

(** X20.  When the metadata store refuses the update, the thumbnail
    handler answers 400 (not 500) [Unable to update video]; the record is
    unchanged and the thumbnail file, with all the bytes of the part, stays
    on disk. *)
Theorem thumbnail_update_failure_keeps_file :
  UpdateVideo_fails E = true ->
  issued UpdateVideoCall (snd (upload_thumbnail E cfg r d f o)) = true ->
  exists videoID fileExtension part,
    form_file r "thumbnail" = Some part
    /\ response (snd result)
       = Some {| status := 400; body := ErrorBody "Unable to update video" |}
    /\ db (snd result) = d
    /\ fs (snd result)
       = <[thumbnail_path E cfg videoID fileExtension := part_data part]> f.
Proof.
  intros Hupd.
  explore_thumbnail.
  all: observe; intros Hcalled; try discriminate.
  all: unfold thumbnail_path.
  all: do 3 eexists; split; [reflexivity|]; split; [reflexivity|].
  all: split; [reflexivity|]. all: by rewrite insert_insert_eq.
Qed.


End ThumbnailPaths.

(** ** The further theorems at the example inputs *)

Lemma no_call_before_authentication_witness :
  trace (snd (sample_upload sample_run false "mallory" "video/mp4" 4096 4096)) = []
  /\ response (snd (sample_upload sample_run false "mallory" "video/mp4" 4096 4096))
     = Some {| status := 401; body := ErrorBody "Couldn't validate JWT" |}.
Proof.
  pose proof (no_call_before_authentication (sample_env sample_run false) sample_cfg
                (sample_request "mallory" "video/mp4" 4096 4096) sample_db ∅ []
                ltac:(right; right; exists "mallory"; split; evaluate))
    as (_ & Htrace & _ & _ & _ & Hresponse).
  split; [exact Htrace | exact Hresponse].
Defined.

Lemma lookup_failure_is_internal_error_witness :
  upload_video (sample_env_with true None false) sample_cfg
    (sample_request "bob" "video/mp4" 4096 4096) sample_db ∅ []
  = (Finished,
     {| db := sample_db; fs := ∅; handles := []; s3 := [];
        trace := [EvGetVideo 7%N];
        response := Some {| status := 500;
                            body := ErrorBody "Couldn't find video metadata" |};
        deferred := [];
        body_limit := Some (2 ^ 30) |}).
Proof.
  apply (lookup_failure_is_internal_error (sample_env_with true None false) sample_cfg
           (sample_request "bob" "video/mp4" 4096 4096) sample_db ∅ [] 7%N "bob" 2%N);
    evaluate.
Defined.

Lemma form_errors_are_bad_requests_witness :
  status_of (snd (upload_video (sample_env sample_run false) sample_cfg
                    sample_request_without_file sample_db ∅ []))
  = Some 400
  /\ response (snd (sample_upload sample_run false "alice" "" 4096 4096))
     = Some {| status := 400; body := ErrorBody "Invalid ID" |}.
Proof.
  pose proof (form_errors_are_bad_requests (sample_env sample_run false) sample_cfg
                sample_request_without_file sample_db ∅ [] 7%N "alice" sample_video
                ltac:(evaluate) ltac:(evaluate) ltac:(evaluate) ltac:(evaluate)
                ltac:(evaluate))
    as [Hmissing _].
  pose proof (form_errors_are_bad_requests (sample_env sample_run false) sample_cfg
                (sample_request "alice" "" 4096 4096) sample_db ∅ []
                7%N "alice" sample_video
                ltac:(evaluate) ltac:(evaluate) ltac:(evaluate) ltac:(evaluate)
                ltac:(evaluate))
    as [_ Hunparsed].
  split.
  - rewrite (Hmissing ltac:(evaluate)). reflexivity.
  - unfold sample_upload.
    rewrite (Hunparsed (sample_part "") ltac:(evaluate) ltac:(evaluate) ltac:(evaluate)).
    reflexivity.
Defined.

Lemma staging_failures_are_internal_errors_witness :
  response (snd (upload_video (sample_env_with false (Some 2%nat) false) sample_cfg
                   (sample_request "alice" "video/mp4" 4096 4096) sample_db ∅ []))
  = Some {| status := 500; body := ErrorBody "Couldn't write video data" |}
  /\ fs (snd (upload_video (sample_env_with false (Some 2%nat) false) sample_cfg
                (sample_request "alice" "video/mp4" 4096 4096) sample_db ∅ []))
     = ∅.
Proof.
  pose proof (staging_failures_are_internal_errors
                (sample_env_with false (Some 2%nat) false) sample_cfg
                (sample_request "alice" "video/mp4" 4096 4096) sample_db ∅ []
                7%N "alice" sample_video (sample_part "video/mp4")
                ltac:(evaluate) ltac:(evaluate) ltac:(evaluate) ltac:(evaluate)
                ltac:(evaluate) ltac:(evaluate) ltac:(evaluate) ltac:(evaluate))
    as (_ & Hcopy & _).
  rewrite (Hcopy sample_temp 2%nat ltac:(evaluate) ltac:(evaluate) ltac:(evaluate)).
  split; reflexivity.
Defined.

Lemma record_changes_only_on_success_witness :
  db (snd (sample_upload sample_run true "alice" "video/mp4" 4096 4096)) = sample_db.
Proof.
  assert (Hstatus : status_of (snd (sample_upload sample_run true "alice" "video/mp4"
                                      4096 4096))
                    <> Some 200) by evaluate.
  exact (proj1 (record_changes_only_on_success (sample_env sample_run true) sample_cfg
                  (sample_request "alice" "video/mp4" 4096 4096) sample_db ∅ []
                  Hstatus)).
Defined.

Lemma ok_only_when_every_step_succeeded_witness :
  exists videoId video part tempFile src data,
    sample_upload sample_run false "alice" "video/mp4" 4096 4096
    = (Finished, uploaded sample_cfg sample_db ∅ [] videoId video part tempFile src data).
Proof.
  assert (Hok : status_of (snd (sample_upload sample_run false "alice" "video/mp4"
                                  4096 4096))
                = Some 200) by evaluate.
  destruct (ok_only_when_every_step_succeeded (sample_env sample_run false) sample_cfg
              (sample_request "alice" "video/mp4" 4096 4096) sample_db ∅ [] Hok)
    as (videoId & jwt & video & part & tempFile & src & data & Hsteps).
  exists videoId, video, part, tempFile, src, data.
  apply Hsteps.
Defined.

Lemma metadata_write_failure_orphans_object_witness :
  response (snd (upload_video (sample_env_with false None true) sample_cfg
                   (sample_request "alice" "video/mp4" 4096 4096) sample_db ∅ []))
  = Some {| status := 500; body := ErrorBody "Couldn't update video" |}
  /\ db (snd (upload_video (sample_env_with false None true) sample_cfg
                (sample_request "alice" "video/mp4" 4096 4096) sample_db ∅ []))
     = sample_db
  /\ length (s3 (snd (upload_video (sample_env_with false None true)
                        sample_cfg (sample_request "alice" "video/mp4" 4096 4096)
                        sample_db ∅ [])))
     = 1%nat.
Proof.
  assert (Hcalled : issued UpdateVideoCall
                      (snd (upload_video (sample_env_with false None true)
                              sample_cfg (sample_request "alice" "video/mp4" 4096 4096)
                              sample_db ∅ []))
                    = true) by evaluate.
  destruct (metadata_write_failure_orphans_object
              (sample_env_with false None true) sample_cfg
              (sample_request "alice" "video/mp4" 4096 4096) sample_db ∅ []
              eq_refl Hcalled)
    as (_ & Hresponse & Hdb & _ & key & content & Hstore).
  split; [exact Hresponse|]. split; [exact Hdb|].
  rewrite Hstore. reflexivity.
Defined.


Lemma thumbnail_not_owner_witness :
  sample_thumbnail (sample_env sample_run false) "bob" "image/png"
  = (Finished,
     {| db := sample_db; fs := ∅; handles := []; s3 := [];
        trace := [EvPrintln; EvFormFile "thumbnail"; EvGetVideo 7%N;
                  EvClose (MultipartFile "thumbnail")];
        response := Some {| status := 401; body := ErrorBody "Not allowed" |};
        deferred := [];
        body_limit := None |}).
Proof.
  apply (thumbnail_not_owner (sample_env sample_run false) sample_cfg
           (sample_request "bob" "image/png" 4096 4096) sample_db ∅ []
           7%N "bob" 2%N sample_video (sample_part "image/png"));
    evaluate.
Defined.

Lemma thumbnail_file_stays_open_witness :
  exists videoID fileExtension,
    handles (snd (sample_thumbnail (sample_env sample_run false) "alice" "image/png"))
    = [OSFile (thumbnail_path (sample_env sample_run false) sample_cfg
                 videoID fileExtension)].
Proof.
  assert (Hcreated : issued CreateCall
                       (snd (sample_thumbnail (sample_env sample_run false)
                               "alice" "image/png"))
                     = true) by evaluate.
  destruct (thumbnail_file_stays_open (sample_env sample_run false) sample_cfg
              (sample_request "alice" "image/png" 4096 4096) sample_db ∅ [] Hcreated)
    as (videoID & fileExtension & _ & _ & Hhandles & _).
  exists videoID, fileExtension. exact Hhandles.
Defined.

Lemma thumbnail_update_failure_keeps_file_witness :
  response (snd (sample_thumbnail (sample_env_with false None true)
                   "alice" "image/png"))
  = Some {| status := 400; body := ErrorBody "Unable to update video" |}
  /\ db (snd (sample_thumbnail (sample_env_with false None true)
                "alice" "image/png"))
     = sample_db.
Proof.
  assert (Hcalled : issued UpdateVideoCall
                      (snd (sample_thumbnail (sample_env_with false None true)
                              "alice" "image/png"))
                    = true) by evaluate.
  destruct (thumbnail_update_failure_keeps_file
              (sample_env_with false None true) sample_cfg
              (sample_request "alice" "image/png" 4096 4096) sample_db ∅ []
              eq_refl Hcalled)
    as (videoID & fileExtension & part & _ & Hresponse & Hdb & _).
  split; [exact Hresponse | exact Hdb].
Defined.
